(** * Relayer: order placement, fill acceptance and the in-process message queue

    A shallow embedding of
      - [src/maker-service/place-order.js]   ([placeOrder]),
      - [src/taker-service/fill-order.js]    ([fillOrder], [invoicesForFill],
        [createRefundInvoices], [checkChannelBalances]),
      - [src/messaging/message-queue.js]     ([MessageQueue]).

    The handlers are [async] functions over a Mongo-backed store, a logger,
    an event bus, a key/value messenger and a payment-channel engine.  They
    are embedded in a state-and-exception monad over an explicit [World]:
    every [await]ed effect is a monadic step, a [throw] ends the call but
    keeps the effects already performed. *)

From stdpp Require Import base option list strings gmap.
From Stdlib Require Import ZArith Lia.

Local Open Scope string_scope.
Local Open Scope Z_scope.
Local Open Scope list_scope.

(** ** Data model *)

(** [Order.STATUSES]; the wire enum [OrderStatus] of relayer.proto. *)
Inductive OrderStatus := CREATED | PLACED | CANCELLED | FILLED | COMPLETED.

(** Modelled from the spec: the Fill model is not in src; the spec gives a
    fill the statuses created, accepted and errored. *)
Inductive FillStatus := FILL_CREATED | FILL_ACCEPTED | FILL_ERRORED.

(** [Invoice.FOREIGN_TYPES], [Invoice.TYPES], [Invoice.PURPOSES]. *)
Inductive ForeignType := ORDER | FILL.
Inductive InvoiceType := INCOMING | OUTGOING.
Inductive Purpose := FEE | DEPOSIT.

#[global] Instance OrderStatus_eq_dec : EqDecision OrderStatus.
Proof. solve_decision. Defined.
#[global] Instance FillStatus_eq_dec : EqDecision FillStatus.
Proof. solve_decision. Defined.
#[global] Instance ForeignType_eq_dec : EqDecision ForeignType.
Proof. solve_decision. Defined.
#[global] Instance InvoiceType_eq_dec : EqDecision InvoiceType.
Proof. solve_decision. Defined.
#[global] Instance Purpose_eq_dec : EqDecision Purpose.
Proof. solve_decision. Defined.

(** Modelled from the spec: the models module ([Order], [Fill] and the four
    invoice models) is not in src.  The records carry the fields the two
    handlers read or write; amounts are integers in the smallest unit. *)
Module Order.
Record t := mk {
  _id : string;
  orderId : string;
  status : OrderStatus;
  payTo : string;
  baseAmount : Z;
  counterAmount : Z
}.
Definition set_status (s : OrderStatus) (o : t) : t :=
  mk (_id o) (orderId o) s (payTo o) (baseAmount o) (counterAmount o).
End Order.

Module Fill.
Record t := mk {
  _id : string;
  fillId : string;
  order_id : string;
  takerPayTo : string;
  fillAmount : Z;
  status : FillStatus
}.
Definition set_status (s : FillStatus) (f : t) : t :=
  mk (_id f) (fillId f) (order_id f) (takerPayTo f) (fillAmount f) s.
End Fill.

Module Invoice.
Record t := mk {
  foreignId : string;
  foreignType : option ForeignType;
  type : option InvoiceType;
  purpose : option Purpose;
  paymentRequest : string;
  preimage : option string
}.
Definition set_preimage (p : string) (i : t) : t :=
  mk (foreignId i) (foreignType i) (type i) (purpose i) (paymentRequest i) (Some p).
End Invoice.

(** A document handed out by [findOne] or [create]: the record as it was
    read, together with its place in the collection, so that a later
    [save] writes back to the same stored document. *)
Definition Doc (A : Type) : Type := (nat * A)%type.

(** The store: one collection per model. *)
Record Db := mkDb {
  orders : list Order.t;
  fills : list Fill.t;
  feeInvoices : list Invoice.t;
  depositInvoices : list Invoice.t;
  feeRefundInvoices : list Invoice.t;
  depositRefundInvoices : list Invoice.t
}.

Inductive Level := info | error.

(** Everything a handler can touch: the store, the logger's output, the
    events put on [eventHandler], the messenger's keys and the payment
    requests the engine was asked to pay. *)
Record World := mkWorld {
  db : Db;
  logs : list (Level * string);
  emitted : list (string * Order.t);
  messenger : gmap string string;
  payments : list string
}.

(** The payment-channel engine, an external collaborator: taken as a
    parameter of every handler. [isBalanceSufficient addr amount outbound]. *)
Record Engine := mkEngine {
  isInvoicePaid : string -> bool;
  getInvoiceValue : string -> Z;
  isBalanceSufficient : string -> Z -> bool -> bool;
  payInvoice : string -> string
}.

(** What a call can throw: a [PublicError] (the message is meant for the
    caller), a plain [Error], or the [TypeError] of reading a property of
    [null]. *)
Inductive Err :=
| PublicError (msg : string)
| Error (msg : string)
| TypeError.

Inductive Outcome (A : Type) :=
| Return (a : A)
| Throw (e : Err).
Arguments Return {A} a.
Arguments Throw {A} e.

(** What a handler returns to the RPC layer: the literal [{}] or
    [new EmptyResponse({})]. *)
Inductive Response := EmptyObject | EmptyResponse.

(** ** The handler monad *)

Definition M (A : Type) : Type := World -> Outcome A * World.

Definition ret {A} (a : A) : M A := fun w => (Return a, w).
Definition throw {A} (e : Err) : M A := fun w => (Throw e, w).
Definition bind {A B} (m : M A) (k : A -> M B) : M B :=
  fun w => match m w with
           | (Return a, w') => k a w'
           | (Throw e, w') => (Throw e, w')
           end.

Notation "x <- m ;; k" := (bind m (fun x => k))
  (at level 100, m at next level, right associativity).
Notation "m ;;; k" := (bind m (fun _ => k))
  (at level 100, right associativity).

Definition get_db : M Db := fun w => (Return (db w), w).
Definition put_db (d : Db) : M unit :=
  fun w => (Return tt, mkWorld d (logs w) (emitted w) (messenger w) (payments w)).

Definition logger_log (l : Level) (msg : string) : M unit :=
  fun w => (Return tt,
            mkWorld (db w) (logs w ++ [(l, msg)]) (emitted w) (messenger w) (payments w)).
Definition logger_error := logger_log error.
Definition logger_info := logger_log info.

(** [eventHandler.emit(name, order)] *)
Definition eventHandler_emit (name : string) (o : Order.t) : M unit :=
  fun w => (Return tt,
            mkWorld (db w) (logs w) (emitted w ++ [(name, o)]) (messenger w) (payments w)).

(** [messenger.set(key, value)] *)
Definition messenger_set (key value : string) : M unit :=
  fun w => (Return tt,
            mkWorld (db w) (logs w) (emitted w) (<[key := value]> (messenger w)) (payments w)).

(** [engine.payInvoice(paymentRequest)]: the payment leaves the relayer and
    the engine answers with the preimage. *)
Definition engine_payInvoice (engine : Engine) (pr : string) : M string :=
  fun w => (Return (payInvoice engine pr),
            mkWorld (db w) (logs w) (emitted w) (messenger w) (payments w ++ [pr])).

(** The world after [logger.error (msg)] or [logger.info (msg)]. *)
Definition logged (l : Level) (msg : string) (w : World) : World :=
  (logger_log l msg w).2.

(** ** Collections *)

(** [Model.findOne(query)]: the first stored document matching the query. *)
Fixpoint findOne_from {A} (q : A -> bool) (i : nat) (l : list A) : option (Doc A) :=
  match l with
  | [] => None
  | x :: l' => if q x then Some (i, x) else findOne_from q (S i) l'
  end.
Definition findOne {A} (q : A -> bool) (l : list A) : option (Doc A) :=
  findOne_from q 0%nat l.

(** [doc.save()]: the stored document is overwritten by the one in memory. *)
Definition save {A} (d : Doc A) (l : list A) : list A := <[d.1 := d.2]> l.

(** [Model.create(fields)]: the new document is stored last. *)
Definition create {A} (x : A) (l : list A) : Doc A * list A :=
  ((List.length l, x), l ++ [x]).

Definition set_orders (f : list Order.t -> list Order.t) (d : Db) : Db :=
  mkDb (f (orders d)) (fills d) (feeInvoices d) (depositInvoices d)
       (feeRefundInvoices d) (depositRefundInvoices d).
Definition set_fills (f : list Fill.t -> list Fill.t) (d : Db) : Db :=
  mkDb (orders d) (f (fills d)) (feeInvoices d) (depositInvoices d)
       (feeRefundInvoices d) (depositRefundInvoices d).
Definition set_feeRefundInvoices (f : list Invoice.t -> list Invoice.t) (d : Db) : Db :=
  mkDb (orders d) (fills d) (feeInvoices d) (depositInvoices d)
       (f (feeRefundInvoices d)) (depositRefundInvoices d).
Definition set_depositRefundInvoices (f : list Invoice.t -> list Invoice.t) (d : Db) : Db :=
  mkDb (orders d) (fills d) (feeInvoices d) (depositInvoices d)
       (feeRefundInvoices d) (f (depositRefundInvoices d)).

Definition modify_db (f : Db -> Db) : M unit :=
  d <- get_db ;; put_db (f d).

(** The four invoice models of the store. *)
Inductive InvoiceModel := FeeInvoice | DepositInvoice | FeeRefundInvoice | DepositRefundInvoice.

Definition collection (m : InvoiceModel) (d : Db) : list Invoice.t :=
  match m with
  | FeeInvoice => feeInvoices d
  | DepositInvoice => depositInvoices d
  | FeeRefundInvoice => feeRefundInvoices d
  | DepositRefundInvoice => depositRefundInvoices d
  end.

Definition set_collection (m : InvoiceModel) (f : list Invoice.t -> list Invoice.t) (d : Db) : Db :=
  match m with
  | FeeInvoice =>
      mkDb (orders d) (fills d) (f (feeInvoices d)) (depositInvoices d)
           (feeRefundInvoices d) (depositRefundInvoices d)
  | DepositInvoice =>
      mkDb (orders d) (fills d) (feeInvoices d) (f (depositInvoices d))
           (feeRefundInvoices d) (depositRefundInvoices d)
  | FeeRefundInvoice => set_feeRefundInvoices f d
  | DepositRefundInvoice => set_depositRefundInvoices f d
  end.

Definition Invoice_findOne (m : InvoiceModel) (q : Invoice.t -> bool) : M (option (Doc Invoice.t)) :=
  d <- get_db ;; ret (findOne q (collection m d)).

Definition Invoice_create (m : InvoiceModel) (x : Invoice.t) : M (Doc Invoice.t) :=
  d <- get_db ;;
  let '(doc, l) := create x (collection m d) in
  put_db (set_collection m (fun _ => l) d) ;;;
  ret doc.

Definition Invoice_save (m : InvoiceModel) (doc : Doc Invoice.t) : M unit :=
  modify_db (set_collection m (save doc)).

Definition Order_findOne (q : Order.t -> bool) : M (option (Doc Order.t)) :=
  d <- get_db ;; ret (findOne q (orders d)).
Definition Order_save (doc : Doc Order.t) : M unit :=
  modify_db (set_orders (save doc)).

Definition Fill_findOne (q : Fill.t -> bool) : M (option (Doc Fill.t)) :=
  d <- get_db ;; ret (findOne q (fills d)).
Definition Fill_save (doc : Doc Fill.t) : M unit :=
  modify_db (set_fills (save doc)).

(** Modelled from the spec: [order.place()] (models not in src) is the
    transition to PLACED: the document's status is set and stored. *)
Definition Order_place (order : Doc Order.t) : M (Doc Order.t) :=
  let order' := (order.1, Order.set_status PLACED order.2) in
  Order_save order' ;;; ret order'.

(** Modelled from the spec: [order.fill()] (models not in src) marks the
    order claimed by a fill: its status leaves PLACED for FILLED. *)
Definition Order_fill (order : Doc Order.t) : M (Doc Order.t) :=
  let order' := (order.1, Order.set_status FILLED order.2) in
  Order_save order' ;;; ret order'.

(** Modelled from the spec: [fill.accept()] (models not in src) marks the
    fill accepted. *)
Definition Fill_accept (fill : Doc Fill.t) : M (Doc Fill.t) :=
  let fill' := (fill.1, Fill.set_status FILL_ACCEPTED fill.2) in
  Fill_save fill' ;;; ret fill'.

(** Modelled from the spec: [invoice.markAsPaid(preimage)] (models not in
    src) marks a refund invoice with its payment preimage. *)
Definition Invoice_markAsPaid (m : InvoiceModel) (doc : Doc Invoice.t) (p : string)
  : M (Doc Invoice.t) :=
  let doc' := (doc.1, Invoice.set_preimage p doc.2) in
  Invoice_save m doc' ;;; ret doc'.

(** [s.slice(n)] *)
Definition slice (n : nat) (s : string) : string :=
  String.substring n (String.length s - n)%nat s.

(** JavaScript's [!x] on a field that holds a string or nothing. *)
Definition falsy (x : option string) : bool :=
  match x with
  | None => true
  | Some s => bool_decide (s = "")
  end.

(** ** PlaceOrder (src/maker-service/place-order.js) *)

Module PlaceOrder.

(** [FRIENDLY_ERRORS] *)
Definition NOT_PLACED (id : string) : string :=
  "Could not place order. Please create another order and try again. Order id: " +:+ id.
Definition FEE_NOT_PAID (id : string) : string :=
  "Fee Invoice has not been paid. Order id: " +:+ id.
Definition DEPOSIT_NOT_PAID (id : string) : string :=
  "Deposit Invoice has not been paid. Order id: " +:+ id.
Definition FEE_VALUES_UNEQUAL (id : string) : string :=
  "Fee Invoice Refund value is not the same as Fee Invoice value. Order id: " +:+ id.
Definition DEPOSIT_VALUES_UNEQUAL (id : string) : string :=
  "Deposit Invoice Refund value is not the same as Deposit Invoice value. Order id: " +:+ id.
Definition INSUFFICIENT_FUNDS_OUTBOUND (id : string) : string :=
  "Outbound channel does not have sufficient balance. Order id: " +:+ id.
Definition INSUFFICIENT_FUNDS_INBOUND (id : string) : string :=
  "Inbound channel does not have sufficient balance. Order id: " +:+ id.

Record Params := mkParams {
  orderId : string;
  feeRefundPaymentRequest : string;
  depositRefundPaymentRequest : string
}.

(** The queries [{ orderId }] and [{ foreignId: order._id }]. *)
Definition by_orderId (id : string) (o : Order.t) : bool :=
  bool_decide (Order.orderId o = id).
Definition by_foreignId (id : string) (i : Invoice.t) : bool :=
  bool_decide (Invoice.foreignId i = id).

(** [{ foreignId: order._id, paymentRequest }] handed to [create]. *)
Definition refund_fields (foreignId paymentRequest : string) : Invoice.t :=
  Invoice.mk foreignId None None None paymentRequest None.

(** Lines 120-124 and 126-130: a stored refund invoice without a
    preimage is paid and the preimage saved on it. *)
Definition refund (engine : Engine) (m : InvoiceModel) (inv : Doc Invoice.t) : M unit :=
  if falsy (Invoice.preimage inv.2) then
    p <- engine_payInvoice engine (Invoice.paymentRequest inv.2) ;;
    Invoice_save m (inv.1, Invoice.set_preimage p inv.2)
  else ret tt.

(** Lines 112-134, once both refund invoices are read back.  A missing
    one makes [feeRefundInvoice.preimage] a read on [null]. *)
Definition refund_cancelled (engine : Engine) (order : Doc Order.t) : M Response :=
  logger_info "Order is in cancelled state, refunding" ;;;
  feeRefundInvoice <- Invoice_findOne FeeRefundInvoice (by_foreignId (Order._id order.2)) ;;
  depositRefundInvoice <- Invoice_findOne DepositRefundInvoice (by_foreignId (Order._id order.2)) ;;
  match feeRefundInvoice with
  | None => throw TypeError
  | Some feeRefundInvoice =>
      refund engine FeeRefundInvoice feeRefundInvoice ;;;
      match depositRefundInvoice with
      | None => throw TypeError
      | Some depositRefundInvoice =>
          refund engine DepositRefundInvoice depositRefundInvoice ;;;
          logger_info "Refunding complete" ;;;
          ret EmptyObject
      end
  end.

(** Lines 54-142, for an order whose two invoices were found. *)
Definition place_checked (engine : Engine) (params : Params)
    (order : Doc Order.t) (feeInvoice depositInvoice : Doc Invoice.t) : M Response :=
  let id := Order.orderId order.2 in
  let feeInvoicePaid := isInvoicePaid engine (Invoice.paymentRequest feeInvoice.2) in
  let depositInvoicePaid := isInvoicePaid engine (Invoice.paymentRequest depositInvoice.2) in
  if negb feeInvoicePaid then
    logger_error "Fee not paid for order" ;;;
    throw (PublicError (FEE_NOT_PAID id))
  else if negb depositInvoicePaid then
    logger_error "Deposit not paid for order" ;;;
    throw (PublicError (DEPOSIT_NOT_PAID id))
  else
  let sufficientBalanceInOutboundChannel :=
    isBalanceSufficient engine (slice 3 (Order.payTo order.2)) (Order.counterAmount order.2) true in
  let sufficientBalanceInInboundChannel :=
    isBalanceSufficient engine (slice 3 (Order.payTo order.2)) (Order.baseAmount order.2) false in
  if negb sufficientBalanceInOutboundChannel then
    logger_error "Insufficient funds in outbound channel for order" ;;;
    throw (PublicError (INSUFFICIENT_FUNDS_OUTBOUND id))
  else if negb sufficientBalanceInInboundChannel then
    logger_error "Insufficient funds in inbound channel for order" ;;;
    throw (PublicError (INSUFFICIENT_FUNDS_INBOUND id))
  else
  let feeValue := getInvoiceValue engine (Invoice.paymentRequest feeInvoice.2) in
  let feeRefundValue := getInvoiceValue engine (feeRefundPaymentRequest params) in
  if negb (feeValue =? feeRefundValue) then
    logger_error "Fee invoice refund amount does not equal fee invoice amount" ;;;
    throw (PublicError (FEE_VALUES_UNEQUAL id))
  else
  let depositValue := getInvoiceValue engine (Invoice.paymentRequest depositInvoice.2) in
  let depositRefundValue := getInvoiceValue engine (depositRefundPaymentRequest params) in
  if negb (depositValue =? depositRefundValue) then
    logger_error "Deposit invoice refund amount does not equal deposit invoice amount" ;;;
    throw (PublicError (DEPOSIT_VALUES_UNEQUAL id))
  else
  Invoice_create FeeRefundInvoice
    (refund_fields (Order._id order.2) (feeRefundPaymentRequest params)) ;;;
  Invoice_create DepositRefundInvoice
    (refund_fields (Order._id order.2) (depositRefundPaymentRequest params)) ;;;
  logger_info "Refund invoices have been stored on the Relayer" ;;;
  if bool_decide (Order.status order.2 = CANCELLED) then
    refund_cancelled engine order
  else
    order' <- Order_place order ;;
    eventHandler_emit "order:placed" order'.2 ;;;
    logger_info "order:placed" ;;;
    ret EmptyResponse.

(** [placeOrder ({ params, logger, eventHandler, engine }, { EmptyResponse })] *)
Definition placeOrder (engine : Engine) (params : Params) : M Response :=
  order <- Order_findOne (by_orderId (orderId params)) ;;
  match order with
  | None => throw TypeError   (* [order._id] on [null] *)
  | Some order =>
      feeInvoice <- Invoice_findOne FeeInvoice (by_foreignId (Order._id order.2)) ;;
      depositInvoice <- Invoice_findOne DepositInvoice (by_foreignId (Order._id order.2)) ;;
      match feeInvoice, depositInvoice with
      | Some feeInvoice, Some depositInvoice =>
          place_checked engine params order feeInvoice depositInvoice
      | _, _ =>
          logger_error "Fee invoice could not be found for order" ;;;
          throw (PublicError (NOT_PLACED (Order.orderId order.2)))
      end
  end.

(** The payment and refund conditions of a call, for the fee and deposit
    invoices found for its order: both reported paid by the engine, and
    each refund request worth exactly its invoice. *)
Definition paid_and_equal (engine : Engine) (params : Params)
    (feeInvoice depositInvoice : Invoice.t) : Prop :=
  isInvoicePaid engine (Invoice.paymentRequest feeInvoice) = true /\
  isInvoicePaid engine (Invoice.paymentRequest depositInvoice) = true /\
  getInvoiceValue engine (feeRefundPaymentRequest params)
    = getInvoiceValue engine (Invoice.paymentRequest feeInvoice) /\
  getInvoiceValue engine (depositRefundPaymentRequest params)
    = getInvoiceValue engine (Invoice.paymentRequest depositInvoice).

(** Outbound and inbound balance at the maker's address, for the order's
    counter and base amounts. *)
Definition balances_sufficient (engine : Engine) (order : Order.t) : Prop :=
  isBalanceSufficient engine (slice 3 (Order.payTo order)) (Order.counterAmount order) true = true /\
  isBalanceSufficient engine (slice 3 (Order.payTo order)) (Order.baseAmount order) false = true.

(** What the refund of a cancelled order owes for a stored refund
    invoice, and what it leaves in the collection. *)
Definition due (inv : Doc Invoice.t) : list string :=
  if falsy (Invoice.preimage inv.2) then [Invoice.paymentRequest inv.2] else [].
Definition settled (engine : Engine) (inv : Doc Invoice.t) (l : list Invoice.t)
  : list Invoice.t :=
  if falsy (Invoice.preimage inv.2)
  then <[inv.1 := Invoice.set_preimage (payInvoice engine (Invoice.paymentRequest inv.2)) inv.2]> l
  else l.

(** The world once the call has stored its two refund invoices
    (lines 105-110). *)
Definition stored_refunds (params : Params) (order : Order.t) (w : World) : World :=
  mkWorld
    (mkDb (orders (db w)) (fills (db w)) (feeInvoices (db w)) (depositInvoices (db w))
          (feeRefundInvoices (db w)
             ++ [refund_fields (Order._id order) (feeRefundPaymentRequest params)])
          (depositRefundInvoices (db w)
             ++ [refund_fields (Order._id order) (depositRefundPaymentRequest params)]))
    (logs w ++ [(info, "Refund invoices have been stored on the Relayer")])
    (emitted w) (messenger w) (payments w).

(** The claim that a call on a cancelled order pays two refunds. *)
Definition pays_two_refunds (engine : Engine) (params : Params) (w : World) : Prop :=
  exists feeRefund depositRefund,
    payments (placeOrder engine params w).2 = payments w ++ [feeRefund; depositRefund].

(** The claim that a call's result is a stream that ends with the fill:
    the call is complete only once the messenger holds a fill id for
    the order. *)
Definition completes_with_fill (engine : Engine) (params : Params) (w : World) : Prop :=
  forall r w', placeOrder engine params w = (Return r, w') ->
  exists order fillId,
    findOne (by_orderId (orderId params)) (orders (db w)) = Some order /\
    messenger w' !! ("fill:" +:+ Order._id order.2) = Some fillId.

End PlaceOrder.

(** ** FillOrder (src/taker-service/fill-order.js) *)

Module FillOrder.

(** [FRIENDLY_ERRORS] *)
Definition INSUFFICIENT_FUNDS_OUTBOUND (id : string) : string :=
  "Outbound channel does not have sufficient balance. Order id: " +:+ id.
Definition INSUFFICIENT_FUNDS_INBOUND (id : string) : string :=
  "Inbound channel does not have sufficient balance. Order id: " +:+ id.
Definition ORDER_NOT_PLACED (id : string) : string :=
  "Order is not in a placed status, refunds have been executed. Order id: " +:+ id.
Definition FEE_VALUES_UNEQUAL (id : string) : string :=
  "Fee Invoice Refund value is not the same as Fee Invoice value. Order id: " +:+ id.
Definition DEPOSIT_VALUES_UNEQUAL (id : string) : string :=
  "Deposit Invoice Refund value is not the same as Deposit Invoice value. Order id: " +:+ id.

Record Params := mkParams {
  fillId : string;
  feeRefundPaymentRequest : string;
  depositRefundPaymentRequest : string
}.

(** The queries [{ fillId }] and [{ _id: fill.order_id }]. *)
Definition by_fillId (id : string) (f : Fill.t) : bool :=
  bool_decide (Fill.fillId f = id).
Definition by__id (id : string) (o : Order.t) : bool :=
  bool_decide (Order._id o = id).

(** The query [{ foreignId, foreignType: FILL, type, purpose }]. *)
Definition by_fill_invoice (_fillId : string) (ty : InvoiceType) (pu : Purpose)
    (i : Invoice.t) : bool :=
  bool_decide (Invoice.foreignId i = _fillId)
  && bool_decide (Invoice.foreignType i = Some FILL)
  && bool_decide (Invoice.type i = Some ty)
  && bool_decide (Invoice.purpose i = Some pu).

(** [invoicesForFill (_fillId)] *)
Definition invoicesForFill (_fillId : string) : M (Doc Invoice.t * Doc Invoice.t) :=
  feeInvoice <- Invoice_findOne FeeInvoice (by_fill_invoice _fillId INCOMING FEE) ;;
  depositInvoice <- Invoice_findOne DepositInvoice (by_fill_invoice _fillId INCOMING DEPOSIT) ;;
  match feeInvoice with
  | None => throw (Error ("Could not find fee invoice associated with Fill " +:+ _fillId +:+ "."))
  | Some feeInvoice =>
      match depositInvoice with
      | None =>
          throw (Error ("Could not find deposit invoice associated with Fill " +:+ _fillId +:+ "."))
      | Some depositInvoice => ret (feeInvoice, depositInvoice)
      end
  end.

(** [createRefundInvoices (_fillId, feeRefundPaymentRequest, depositRefundPaymentRequest)] *)
Definition createRefundInvoices (_fillId feeRefundPaymentRequest depositRefundPaymentRequest : string)
  : M (Doc Invoice.t * Doc Invoice.t) :=
  feeRefundInvoice <- Invoice_create FeeRefundInvoice
    (Invoice.mk _fillId (Some FILL) (Some OUTGOING) (Some FEE) feeRefundPaymentRequest None) ;;
  depositRefundInvoice <- Invoice_create DepositRefundInvoice
    (Invoice.mk _fillId (Some FILL) (Some OUTGOING) (Some DEPOSIT) depositRefundPaymentRequest None) ;;
  ret (feeRefundInvoice, depositRefundInvoice).

(** [checkChannelBalances (order, fill, engine, logger)] *)
Definition checkChannelBalances (order : Order.t) (fill : Fill.t) (engine : Engine) : M unit :=
  let sufficientBalanceInOutboundChannelMaker :=
    isBalanceSufficient engine (slice 3 (Order.payTo order)) (Order.counterAmount order) true in
  let sufficientBalanceInInboundChannelMaker :=
    isBalanceSufficient engine (slice 3 (Order.payTo order)) (Order.baseAmount order) false in
  let sufficientBalanceInOutboundChannelTaker :=
    isBalanceSufficient engine (slice 3 (Fill.takerPayTo fill)) (Order.counterAmount order) true in
  let sufficientBalanceInInboundChannelTaker :=
    isBalanceSufficient engine (slice 3 (Fill.takerPayTo fill)) (Order.baseAmount order) false in
  if negb sufficientBalanceInOutboundChannelMaker then
    logger_error "Insufficient funds in outbound channel for order" ;;;
    throw (PublicError (INSUFFICIENT_FUNDS_OUTBOUND (Order.orderId order)))
  else if negb sufficientBalanceInInboundChannelMaker then
    logger_error "Insufficient funds in inbound channel for order" ;;;
    throw (PublicError (INSUFFICIENT_FUNDS_INBOUND (Order.orderId order)))
  else if negb sufficientBalanceInOutboundChannelTaker then
    logger_error "Insufficient funds in outbound channel for order" ;;;
    throw (PublicError (INSUFFICIENT_FUNDS_OUTBOUND (Order.orderId order)))
  else if negb sufficientBalanceInInboundChannelTaker then
    logger_error "Insufficient funds in inbound channel for order" ;;;
    throw (PublicError (INSUFFICIENT_FUNDS_INBOUND (Order.orderId order)))
  else ret tt.

(** Lines 35-40: the fill and its order are read from the store. *)
Definition lookup (params : Params) : M (Doc Fill.t * Doc Order.t) :=
  fill <- Fill_findOne (by_fillId (fillId params)) ;;
  match fill with
  | None => throw (Error ("No fill with ID " +:+ fillId params +:+ "."))
  | Some fill =>
      order <- Order_findOne (by__id (Fill.order_id fill.2)) ;;
      match order with
      | None =>
          throw (Error ("No order associated with fill " +:+ Fill.fillId fill.2 +:+ "."))
      | Some order => ret (fill, order)
      end
  end.

(** Lines 42-99: everything the call does with the two documents it
    holds in memory.  [order.status] is the status as [lookup] read it. *)
Definition settle (engine : Engine) (params : Params)
    (fill : Doc Fill.t) (order : Doc Order.t) : M Response :=
  let id := Order.orderId order.2 in
  invoices <- invoicesForFill (Fill._id fill.2) ;;
  let feeInvoice := invoices.1 in
  let depositInvoice := invoices.2 in
  let feeInvoicePaid := isInvoicePaid engine (Invoice.paymentRequest feeInvoice.2) in
  let depositInvoicePaid := isInvoicePaid engine (Invoice.paymentRequest depositInvoice.2) in
  if negb feeInvoicePaid then
    throw (Error ("Fee Invoice for Order " +:+ id +:+ " has not been paid."))
  else if negb depositInvoicePaid then
    throw (Error ("Deposit Invoice for Order " +:+ id +:+ " has not been paid."))
  else
  let feeValue := getInvoiceValue engine (Invoice.paymentRequest feeInvoice.2) in
  let feeRefundValue := getInvoiceValue engine (feeRefundPaymentRequest params) in
  if negb (feeValue =? feeRefundValue) then
    logger_error "Fee invoice refund amount does not equal fee invoice amount" ;;;
    throw (PublicError (FEE_VALUES_UNEQUAL id))
  else
  let depositValue := getInvoiceValue engine (Invoice.paymentRequest depositInvoice.2) in
  let depositRefundValue := getInvoiceValue engine (depositRefundPaymentRequest params) in
  if negb (depositValue =? depositRefundValue) then
    logger_error "Deposit invoice refund amount does not equal deposit invoice amount" ;;;
    throw (PublicError (DEPOSIT_VALUES_UNEQUAL id))
  else
  refunds <- createRefundInvoices (Fill._id fill.2)
               (feeRefundPaymentRequest params) (depositRefundPaymentRequest params) ;;
  let feeRefundInvoice := refunds.1 in
  let depositRefundInvoice := refunds.2 in
  logger_info "Refund invoices have been stored on the Relayer" ;;;
  checkChannelBalances order.2 fill.2 engine ;;;
  if negb (bool_decide (Order.status order.2 = PLACED)) then
    feePreimage <- engine_payInvoice engine (feeRefundPaymentRequest params) ;;
    depositPreimage <- engine_payInvoice engine (depositRefundPaymentRequest params) ;;
    Invoice_markAsPaid FeeRefundInvoice feeRefundInvoice feePreimage ;;;
    Invoice_markAsPaid DepositRefundInvoice depositRefundInvoice depositPreimage ;;;
    throw (PublicError (ORDER_NOT_PLACED id))
  else
  Fill_accept fill ;;;
  Order_fill order ;;;
  messenger_set ("fill:" +:+ Order._id order.2) (Fill.fillId fill.2) ;;;
  logger_info "order:filling" ;;;
  ret EmptyObject.

(** [fillOrder ({ params, logger, messenger, engine })] *)
Definition fillOrder (engine : Engine) (params : Params) : M Response :=
  docs <- lookup params ;;
  settle engine params docs.1 docs.2.

(** The preconditions of a call, one by one: each gives the error the
    handler throws when it fails. *)
Definition paid_failure (engine : Engine) (order : Order.t)
    (feeInvoice depositInvoice : Invoice.t) : option Err :=
  let id := Order.orderId order in
  if negb (isInvoicePaid engine (Invoice.paymentRequest feeInvoice))
  then Some (Error ("Fee Invoice for Order " +:+ id +:+ " has not been paid."))
  else if negb (isInvoicePaid engine (Invoice.paymentRequest depositInvoice))
  then Some (Error ("Deposit Invoice for Order " +:+ id +:+ " has not been paid."))
  else None.

Definition refund_value_failure (engine : Engine) (params : Params) (order : Order.t)
    (feeInvoice depositInvoice : Invoice.t) : option Err :=
  let id := Order.orderId order in
  if negb (getInvoiceValue engine (Invoice.paymentRequest feeInvoice)
           =? getInvoiceValue engine (feeRefundPaymentRequest params))
  then Some (PublicError (FEE_VALUES_UNEQUAL id))
  else if negb (getInvoiceValue engine (Invoice.paymentRequest depositInvoice)
                =? getInvoiceValue engine (depositRefundPaymentRequest params))
  then Some (PublicError (DEPOSIT_VALUES_UNEQUAL id))
  else None.

Definition balance_failure (engine : Engine) (order : Order.t) (fill : Fill.t) : option Err :=
  let id := Order.orderId order in
  let maker := slice 3 (Order.payTo order) in
  let taker := slice 3 (Fill.takerPayTo fill) in
  if negb (isBalanceSufficient engine maker (Order.counterAmount order) true)
  then Some (PublicError (INSUFFICIENT_FUNDS_OUTBOUND id))
  else if negb (isBalanceSufficient engine maker (Order.baseAmount order) false)
  then Some (PublicError (INSUFFICIENT_FUNDS_INBOUND id))
  else if negb (isBalanceSufficient engine taker (Order.counterAmount order) true)
  then Some (PublicError (INSUFFICIENT_FUNDS_OUTBOUND id))
  else if negb (isBalanceSufficient engine taker (Order.baseAmount order) false)
  then Some (PublicError (INSUFFICIENT_FUNDS_INBOUND id))
  else None.

(** The error of the first check that fails. *)
Fixpoint first_failure (checks : list (option Err)) : option Err :=
  match checks with
  | [] => None
  | Some e :: _ => Some e
  | None :: checks' => first_failure checks'
  end.

(** Record existence: the fill, its order, its fee invoice and its
    deposit invoice, then whatever [checks] asks of them. *)
Definition with_records (params : Params) (d : Db)
    (checks : Fill.t -> Order.t -> Invoice.t -> Invoice.t -> option Err) : option Err :=
  match findOne (by_fillId (fillId params)) (fills d) with
  | None => Some (Error ("No fill with ID " +:+ fillId params +:+ "."))
  | Some fill =>
  match findOne (by__id (Fill.order_id fill.2)) (orders d) with
  | None => Some (Error ("No order associated with fill " +:+ Fill.fillId fill.2 +:+ "."))
  | Some order =>
  match findOne (by_fill_invoice (Fill._id fill.2) INCOMING FEE) (feeInvoices d) with
  | None =>
      Some (Error ("Could not find fee invoice associated with Fill " +:+ Fill._id fill.2 +:+ "."))
  | Some feeInvoice =>
  match findOne (by_fill_invoice (Fill._id fill.2) INCOMING DEPOSIT) (depositInvoices d) with
  | None =>
      Some (Error ("Could not find deposit invoice associated with Fill "
                   +:+ Fill._id fill.2 +:+ "."))
  | Some depositInvoice => checks fill.2 order.2 feeInvoice.2 depositInvoice.2
  end end end end.

(** The order the handler applies the preconditions in: records exist,
    invoices paid, refund values equal, channel balances. *)
Definition precondition_failure (engine : Engine) (params : Params) (d : Db) : option Err :=
  with_records params d (fun fill order feeInvoice depositInvoice =>
    first_failure [paid_failure engine order feeInvoice depositInvoice;
                   refund_value_failure engine params order feeInvoice depositInvoice;
                   balance_failure engine order fill]).

(** The order PlaceOrder has them in, and the claim gives FillOrder:
    records exist, invoices paid, channel balances, refund values equal. *)
Definition stated_order_failure (engine : Engine) (params : Params) (d : Db) : option Err :=
  with_records params d (fun fill order feeInvoice depositInvoice =>
    first_failure [paid_failure engine order feeInvoice depositInvoice;
                   balance_failure engine order fill;
                   refund_value_failure engine params order feeInvoice depositInvoice]).

(** The claim that a call fails on the first precondition, in the stated
    order, that does not hold. *)
Definition checks_in_stated_order (engine : Engine) (params : Params) (w : World) : Prop :=
  forall e, stated_order_failure engine params (db w) = Some e ->
            (fillOrder engine params w).1 = Throw e.

(** The two refund invoices a call stores, as [createRefundInvoices]
    fills them in, and as they are once marked paid. *)
Definition fee_refund (fill : Fill.t) (params : Params) : Invoice.t :=
  Invoice.mk (Fill._id fill) (Some FILL) (Some OUTGOING) (Some FEE)
             (feeRefundPaymentRequest params) None.
Definition deposit_refund (fill : Fill.t) (params : Params) : Invoice.t :=
  Invoice.mk (Fill._id fill) (Some FILL) (Some OUTGOING) (Some DEPOSIT)
             (depositRefundPaymentRequest params) None.
Definition paid_back (engine : Engine) (inv : Invoice.t) : Invoice.t :=
  Invoice.set_preimage (payInvoice engine (Invoice.paymentRequest inv)) inv.

End FillOrder.

(** ** Overlapping FillOrder calls

    The process serves many calls at once; a call gives way to the others
    at each [await].  [FillOrder.lookup] ends at an [await] and
    [FillOrder.settle] starts after it, so a scheduler may run any other
    call's steps between the two. *)

Module Concurrent.











End Concurrent.

(** ** MessageQueue (src/messaging/message-queue.js) *)

Module MessageQueue.

(** [_queue] and [_listeners] are the class's two arrays.  A listener is
    the [resolve] of a promise [next] handed out; promises are numbered
    in the order they were created, [resolved] holds those already
    settled with the item they got ([None] for [undefined]), and
    [dequeued] the payloads of the 'dequeue' events emitted. *)
Record t := mk {
  _queue : list string;
  _listeners : list nat;
  promises : nat;
  resolved : gmap nat (option string);
  dequeued : list (option string)
}.

(** [constructor ()] *)
Definition new : t := mk [] [] 0%nat ∅ [].

(** [dequeue ()]: [shift] takes the oldest item out of the queue. *)
Definition dequeue (q : t) : option string * t :=
  match _queue q with
  | [] => (None, mk [] (_listeners q) (promises q) (resolved q) (dequeued q ++ [None]))
  | item :: rest =>
      (Some item,
       mk rest (_listeners q) (promises q) (resolved q) (dequeued q ++ [Some item]))
  end.

(** Calling a promise's [resolve]: only the first call settles it. *)
Definition resolve (item : option string) (r : gmap nat (option string)) (p : nat)
  : gmap nat (option string) :=
  match r !! p with
  | Some _ => r
  | None => <[p := item]> r
  end.

(** The handler of 'enqueue' installed by the constructor. *)
Definition on_enqueue (q : t) : t :=
  match _listeners q with
  | [] => q
  | _ :: _ =>
      let '(item, q') := dequeue q in
      mk (_queue q') [] (promises q')
         (foldl (resolve item) (resolved q') (_listeners q')) (dequeued q')
  end.

(** [enqueue (item)] *)
Definition enqueue (item : string) (q : t) : t :=
  on_enqueue (mk (_queue q ++ [item]) (_listeners q) (promises q) (resolved q) (dequeued q)).

(** [next ()]: the new promise, and the queue after its executor ran. *)
Definition next (q : t) : nat * t :=
  let p := promises q in
  match _queue q with
  | _ :: _ =>
      let '(item, q') := dequeue q in
      (p, mk (_queue q') (_listeners q') (S p) (resolve item (resolved q') p) (dequeued q'))
  | [] =>
      (p, mk (_queue q) (_listeners q ++ [p]) (S p) (resolved q) (dequeued q))
  end.

(** The value a promise was settled with, if it was. *)
Definition observed (q : t) (p : nat) : option (option string) := resolved q !! p.

(** The claim about a delivered item: after [enqueue item], each of two
    calls of [next] in a row observes [item]. *)
Definition observed_twice (item : string) (q : t) : Prop :=
  let q1 := enqueue item q in
  let first := next q1 in
  let second := next first.2 in
  observed second.2 first.1 = Some (Some item) /\
  observed second.2 second.1 = Some (Some item).

End MessageQueue.

(** ** Sample worlds *)

Module Sample.

Definition engine : Engine :=
  mkEngine (fun pr => negb (bool_decide (pr = "unpaid")))
           (fun pr => if bool_decide (pr = "big") then 2 else 1)
           (fun addr amount outbound => negb (bool_decide (addr = "poor")))
           (fun pr => "preimage:" +:+ pr).

Definition order (st : OrderStatus) : Order.t :=
  Order.mk "o1" "order-42" st "ln:maker" 100000 500000.

Definition fill1 : Fill.t := Fill.mk "f1" "fill-7" "o1" "ln:taker" 100000 FILL_CREATED.
Definition fill2 : Fill.t := Fill.mk "f2" "fill-8" "o1" "ln:taker2" 100000 FILL_CREATED.

Definition incoming (foreignId : string) (ft : ForeignType) (pu : Purpose) (pr : string)
  : Invoice.t :=
  Invoice.mk foreignId (Some ft) (Some INCOMING) (Some pu) pr None.

Definition world (d : Db) : World := mkWorld d [] [] ∅ [].

(** An order with both invoices paid, and two fills against it, each
    with both invoices paid. *)
Definition db_of (o : Order.t) : Db :=
  mkDb [o] [fill1; fill2]
       [incoming "o1" ORDER FEE "fee-o1"; incoming "f1" FILL FEE "fee-f1";
        incoming "f2" FILL FEE "fee-f2"]
       [incoming "o1" ORDER DEPOSIT "dep-o1"; incoming "f1" FILL DEPOSIT "dep-f1";
        incoming "f2" FILL DEPOSIT "dep-f2"]
       [] [].

(** The same order, its maker short of channel balance. *)
Definition poor_order (st : OrderStatus) : Order.t :=
  Order.mk "o1" "order-42" st "ln:poor" 100000 500000.

(** The order and its deposit invoice; the fee invoice is missing. *)
Definition db_without_fee_invoice : Db :=
  mkDb [order CREATED] [] [] [incoming "o1" ORDER DEPOSIT "dep-o1"] [] [].

Definition place_params : PlaceOrder.Params :=
  PlaceOrder.mkParams "order-42" "refund-fee" "refund-dep".
Definition fill_params1 : FillOrder.Params :=
  FillOrder.mkParams "fill-7" "refund-fee-f1" "refund-dep-f1".

(** A fee refund request worth more than the fee invoice. *)
Definition fill_params_big : FillOrder.Params :=
  FillOrder.mkParams "fill-7" "big" "refund-dep-f1".
Definition place_params_big : PlaceOrder.Params :=
  PlaceOrder.mkParams "order-42" "big" "refund-dep".

End Sample.


(** ** Sequences of queue operations *)

Module QueueOps.

(** The three methods of the class, as a caller may invoke them. *)
Inductive Op :=
| Enqueue (item : string)
| Dequeue
| Next.

Definition exec1 (q : MessageQueue.t) (op : Op) : MessageQueue.t :=
  match op with
  | Enqueue item => MessageQueue.enqueue item q
  | Dequeue => (MessageQueue.dequeue q).2
  | Next => (MessageQueue.next q).2
  end.

(** [exec ops q]: the queue after the calls [ops], made in that order. *)
Definition exec (ops : list Op) (q : MessageQueue.t) : MessageQueue.t :=
  foldl exec1 q ops.

(** The items the calls [ops] put in, in order. *)
Definition enqueued (ops : list Op) : list string :=
  omap (fun op => match op with Enqueue item => Some item | _ => None end) ops.

(** The items taken out so far (the payloads of the 'dequeue' events that
    carried one) followed by the items still queued. *)
Definition passed_through (q : MessageQueue.t) : list string :=
  omap id (MessageQueue.dequeued q) ++ MessageQueue._queue q.

(** What holds of a queue however it was used: items and listeners never
    wait together, a settled promise is one that was handed out, and a
    listener is a handed-out promise not yet settled. *)
Record consistent (q : MessageQueue.t) : Prop := mkConsistent {
  exclusive : MessageQueue._queue q = [] \/ MessageQueue._listeners q = [];
  settled_known :
    forall p v, MessageQueue.resolved q !! p = Some v -> (p < MessageQueue.promises q)%nat;
  listeners_pending :
    forall p, p ∈ MessageQueue._listeners q ->
              (p < MessageQueue.promises q)%nat /\ MessageQueue.resolved q !! p = None
}.

End QueueOps.

(** ** The checks of PlaceOrder, in the handler's order *)

Module PlaceChecks.

(** The message of the first check of [placeOrder] that fails for an order
    on record: its two invoices exist, the fee invoice is paid, the
    deposit invoice is paid, the outbound balance suffices, the inbound
    balance suffices, the fee refund is worth the fee, the deposit refund
    is worth the deposit. *)
Definition precondition_failure (engine : Engine) (params : PlaceOrder.Params)
    (d : Db) (order : Order.t) : option string :=
  let id := Order.orderId order in
  match findOne (PlaceOrder.by_foreignId (Order._id order)) (feeInvoices d),
        findOne (PlaceOrder.by_foreignId (Order._id order)) (depositInvoices d) with
  | Some feeInvoice, Some depositInvoice =>
      if negb (isInvoicePaid engine (Invoice.paymentRequest feeInvoice.2))
      then Some (PlaceOrder.FEE_NOT_PAID id)
      else if negb (isInvoicePaid engine (Invoice.paymentRequest depositInvoice.2))
      then Some (PlaceOrder.DEPOSIT_NOT_PAID id)
      else if negb (isBalanceSufficient engine (slice 3 (Order.payTo order))
                      (Order.counterAmount order) true)
      then Some (PlaceOrder.INSUFFICIENT_FUNDS_OUTBOUND id)
      else if negb (isBalanceSufficient engine (slice 3 (Order.payTo order))
                      (Order.baseAmount order) false)
      then Some (PlaceOrder.INSUFFICIENT_FUNDS_INBOUND id)
      else if negb (getInvoiceValue engine (Invoice.paymentRequest feeInvoice.2)
                    =? getInvoiceValue engine (PlaceOrder.feeRefundPaymentRequest params))
      then Some (PlaceOrder.FEE_VALUES_UNEQUAL id)
      else if negb (getInvoiceValue engine (Invoice.paymentRequest depositInvoice.2)
                    =? getInvoiceValue engine (PlaceOrder.depositRefundPaymentRequest params))
      then Some (PlaceOrder.DEPOSIT_VALUES_UNEQUAL id)
      else None
  | _, _ => Some (PlaceOrder.NOT_PLACED id)
  end.

(** The world after a call on a CANCELLED order that passed its checks,
    given the two refund invoices it read back. *)
Definition refunded (engine : Engine) (params : PlaceOrder.Params) (order : Order.t)
    (feeRefundInvoice depositRefundInvoice : Doc Invoice.t) (w : World) : World :=
  let w1 := PlaceOrder.stored_refunds params order w in
  mkWorld
    (mkDb (orders (db w)) (fills (db w)) (feeInvoices (db w)) (depositInvoices (db w))
          (PlaceOrder.settled engine feeRefundInvoice (feeRefundInvoices (db w1)))
          (PlaceOrder.settled engine depositRefundInvoice (depositRefundInvoices (db w1))))
    (logs w1 ++ [(info, "Order is in cancelled state, refunding");
                 (info, "Refunding complete")])
    (emitted w)
    (messenger w)
    (payments w ++ PlaceOrder.due feeRefundInvoice ++ PlaceOrder.due depositRefundInvoice).

(** The world after a call on any other order that passed its checks. *)
Definition placed (params : PlaceOrder.Params) (order : Doc Order.t) (w : World) : World :=
  let w1 := PlaceOrder.stored_refunds params order.2 w in
  mkWorld
    (mkDb (<[order.1 := Order.set_status PLACED order.2]> (orders (db w)))
          (fills (db w)) (feeInvoices (db w)) (depositInvoices (db w))
          (feeRefundInvoices (db w1)) (depositRefundInvoices (db w1)))
    (logs w1 ++ [(info, "order:placed")])
    (emitted w ++ [("order:placed", Order.set_status PLACED order.2)])
    (messenger w)
    (payments w).

End PlaceChecks.

(** ** The worlds a FillOrder call leaves *)

Module FillChecks.

(** The world once the call has stored the fill's two refund invoices
    (line 71 and the log line after it). *)
Definition stored (fill : Fill.t) (params : FillOrder.Params) (w : World) : World :=
  mkWorld
    (mkDb (orders (db w)) (fills (db w)) (feeInvoices (db w)) (depositInvoices (db w))
          (feeRefundInvoices (db w) ++ [FillOrder.fee_refund fill params])
          (depositRefundInvoices (db w) ++ [FillOrder.deposit_refund fill params]))
    (logs w ++ [(info, "Refund invoices have been stored on the Relayer")])
    (emitted w) (messenger w) (payments w).

(** The world after a call that found its order not PLACED. *)
Definition refused (engine : Engine) (fill : Fill.t) (params : FillOrder.Params) (w : World)
  : World :=
  mkWorld
    (mkDb (orders (db w)) (fills (db w)) (feeInvoices (db w)) (depositInvoices (db w))
          (feeRefundInvoices (db w)
             ++ [FillOrder.paid_back engine (FillOrder.fee_refund fill params)])
          (depositRefundInvoices (db w)
             ++ [FillOrder.paid_back engine (FillOrder.deposit_refund fill params)]))
    (logs w ++ [(info, "Refund invoices have been stored on the Relayer")])
    (emitted w) (messenger w)
    (payments w ++ [FillOrder.feeRefundPaymentRequest params;
                    FillOrder.depositRefundPaymentRequest params]).

(** The world after a call that was accepted. *)
Definition accepted (fill : Doc Fill.t) (order : Doc Order.t) (params : FillOrder.Params)
    (w : World) : World :=
  mkWorld
    (mkDb (<[order.1 := Order.set_status FILLED order.2]> (orders (db w)))
          (<[fill.1 := Fill.set_status FILL_ACCEPTED fill.2]> (fills (db w)))
          (feeInvoices (db w)) (depositInvoices (db w))
          (feeRefundInvoices (db w) ++ [FillOrder.fee_refund fill.2 params])
          (depositRefundInvoices (db w) ++ [FillOrder.deposit_refund fill.2 params]))
    (logs w ++ [(info, "Refund invoices have been stored on the Relayer");
                (info, "order:filling")])
    (emitted w)
    (<["fill:" +:+ Order._id order.2 := Fill.fillId fill.2]> (messenger w))
    (payments w).

(** The checks a call makes before it stores anything: the records exist,
    the invoices are paid, the refund requests are worth the invoices. *)
Definition early_failure (engine : Engine) (params : FillOrder.Params) (d : Db) : option Err :=
  FillOrder.with_records params d (fun fill order feeInvoice depositInvoice =>
    FillOrder.first_failure
      [FillOrder.paid_failure engine order feeInvoice depositInvoice;
       FillOrder.refund_value_failure engine params order feeInvoice depositInvoice]).

End FillChecks.

(** A store in which order-42 has been cancelled, and the document of the
    same order as a FillOrder call read it while it was still PLACED. *)
Module Stale.

Definition world : World := Sample.world (Sample.db_of (Sample.order CANCELLED)).

End Stale.

(** The order and the fill of the samples, with their fee invoices not
    paid. *)
Module Unpaid.

Definition db : Db :=
  mkDb [Sample.order PLACED] [Sample.fill1]
       [Sample.incoming "o1" ORDER FEE "unpaid"; Sample.incoming "f1" FILL FEE "unpaid"]
       [Sample.incoming "o1" ORDER DEPOSIT "dep-o1"; Sample.incoming "f1" FILL DEPOSIT "dep-f1"]
       [] [].

End Unpaid.

(** Refund invoices, whatever preimage has been saved on them. *)
Module Refunds.


End Refunds.
(** * Properties *)

(** ** Collections: what [findOne] finds *)

Section FindOne.
Context {A : Type} (q : A -> bool).

Lemma findOne_from_spec (l : list A) (k i : nat) (x : A) :
  findOne_from q k l = Some (i, x) ->
  exists j, i = (k + j)%nat /\ l !! j = Some x /\ q x = true /\
            forall j' y, (j' < j)%nat -> l !! j' = Some y -> q y = false.
Proof.
  revert k. induction l as [|a l IH]; intros k H; simpl in H; [discriminate|].
  destruct (q a) eqn:Hqa.
  - inversion H; subst. exists 0%nat. repeat split; auto with lia.
  - apply IH in H as (j & -> & Hj & Hq & Hlt).
    exists (S j). repeat split; auto with lia.
    intros [|j'] y Hj' Hy; simpl in Hy.
    + congruence.
    + apply (Hlt j'); [lia | exact Hy].
Qed.

Lemma findOne_from_complete (l : list A) (k j : nat) (x : A) :
  l !! j = Some x -> q x = true ->
  (forall j' y, (j' < j)%nat -> l !! j' = Some y -> q y = false) ->
  findOne_from q k l = Some ((k + j)%nat, x).
Proof.
  revert k j. induction l as [|a l IH]; intros k j Hj Hq Hlt; [discriminate|].
  destruct j as [|j]; simpl in *.
  - inversion Hj; subst. rewrite Hq. do 2 f_equal. lia.
  - rewrite (Hlt 0%nat a) by (auto with lia).
    rewrite (IH (S k) j); auto.
    + do 2 f_equal. lia.
    + intros j' y Hj' Hy. apply (Hlt (S j')); [lia | exact Hy].
Qed.

(** [findOne] returns the first match, with its place in the list. *)
Lemma findOne_Some (l : list A) (i : nat) (x : A) :
  findOne q l = Some (i, x) <->
  l !! i = Some x /\ q x = true /\
  forall j y, (j < i)%nat -> l !! j = Some y -> q y = false.
Proof.
  split.
  - intros H. apply findOne_from_spec in H as (j & -> & H). exact H.
  - intros (Hi & Hq & Hlt). apply (findOne_from_complete l 0 i x); auto.
Qed.

Lemma findOne_from_None (l : list A) (k : nat) :
  findOne_from q k l = None <-> forall x, x ∈ l -> q x = false.
Proof.
  revert k. induction l as [|a l IH]; intros k; simpl.
  - split; [intros _ x Hx; inversion Hx | reflexivity].
  - destruct (q a) eqn:Hqa.
    + split; [discriminate|]. intros H. rewrite (H a) in Hqa by constructor. discriminate.
    + rewrite IH. split.
      * intros H x Hx. inversion Hx; subst; auto.
      * intros H x Hx. apply H. now constructor.
Qed.

Lemma findOne_None (l : list A) :
  findOne q l = None <-> forall x, x ∈ l -> q x = false.
Proof. apply findOne_from_None. Qed.

(** A document stored last is found unless an older one matches. *)
Lemma findOne_snoc (l : list A) (x : A) :
  q x = true ->
  findOne q (l ++ [x]) =
    match findOne q l with
    | Some d => Some d
    | None => Some (List.length l, x)
    end.
Proof.
  intros Hq. destruct (findOne q l) as [[i y]|] eqn:Hf.
  - apply findOne_Some in Hf as (Hi & Hy & Hlt). apply findOne_Some.
    assert (i < List.length l)%nat by (eapply lookup_lt_Some; eauto).
    repeat split; auto.
    + rewrite lookup_app_l; auto.
    + intros j z Hj Hz. rewrite lookup_app_l in Hz by lia. eauto.
  - apply findOne_Some. repeat split; auto.
    + apply list_lookup_middle. reflexivity.
    + intros j z Hj Hz. rewrite lookup_app_l in Hz by lia.
      eapply findOne_None; eauto. eapply list_elem_of_lookup_2; eauto.
Qed.

(** Overwriting a stored document by one the query treats alike does not
    change which place [findOne] returns. *)
Lemma findOne_insert (l : list A) (k : nat) (x y : A) :
  l !! k = Some x -> q y = q x ->
  findOne q (<[k := y]> l) =
    match findOne q l with
    | Some (i, z) => Some (i, if decide (i = k) then y else z)
    | None => None
    end.
Proof.
  intros Hk Hqy.
  assert (Hlen : (k < List.length l)%nat) by (eapply lookup_lt_Some; eauto).
  destruct (findOne q l) as [[i z]|] eqn:Hf.
  - apply findOne_Some in Hf as (Hi & Hz & Hlt). apply findOne_Some.
    split; [|split].
    + destruct (decide (i = k)) as [->|Hne].
      * now apply list_lookup_insert_eq.
      * rewrite list_lookup_insert_ne; auto.
    + destruct (decide (i = k)) as [->|Hne]; [|exact Hz]. congruence.
    + intros j u Hj Hu. destruct (decide (k = j)) as [->|Hne].
      * rewrite list_lookup_insert_eq in Hu by lia. inversion Hu; subst.
        rewrite Hqy. eauto.
      * rewrite list_lookup_insert_ne in Hu by auto. eauto.
  - apply findOne_None. intros u Hu.
    apply list_elem_of_lookup in Hu as [j Hj].
    destruct (decide (k = j)) as [->|Hne].
    + rewrite list_lookup_insert_eq in Hj by lia. inversion Hj; subst.
      rewrite Hqy. eapply findOne_None; eauto. eapply list_elem_of_lookup_2; eauto.
    + rewrite list_lookup_insert_ne in Hj by auto.
      eapply findOne_None; eauto. eapply list_elem_of_lookup_2; eauto.
Qed.

End FindOne.

(** A document created and then saved again is stored once, as saved. *)
Lemma save_created {A} (l : list A) (x y : A) :
  save (List.length l, y) (l ++ [x]) = l ++ [y].
Proof.
  unfold save; simpl.
  replace (List.length l) with (List.length l + 0)%nat at 1 by lia.
  now rewrite insert_app_r.
Qed.

(** ** Running a handler on a world *)

Ltac destruct_world w :=
  let d := fresh "d" in
  destruct w as [d ? ? ? ?]; destruct d as [? ? ? ? ? ?].

Ltac run_monad :=
  cbv beta iota zeta delta
    [bind ret throw get_db put_db modify_db
     logger_error logger_info logger_log eventHandler_emit messenger_set
     engine_payInvoice Invoice_findOne Invoice_create Invoice_save
     Order_findOne Order_save Fill_findOne Fill_save
     Order_place Order_fill Fill_accept Invoice_markAsPaid
     create collection set_collection set_feeRefundInvoices
     set_depositRefundInvoices set_orders set_fills];
  cbn [db logs emitted messenger payments orders fills feeInvoices
       depositInvoices feeRefundInvoices depositRefundInvoices fst snd].


(** ** Channel balances of a fill *)

Lemma checkChannelBalances_run (order : Order.t) (fill : Fill.t) (engine : Engine) (w : World) :
  match FillOrder.balance_failure engine order fill with
  | None => FillOrder.checkChannelBalances order fill engine w = (Return tt, w)
  | Some e =>
      exists msg, FillOrder.checkChannelBalances order fill engine w = (Throw e, logged error msg w)
  end.
Proof.
  unfold FillOrder.balance_failure, FillOrder.checkChannelBalances.
  repeat (match goal with
          | |- context [negb ?b] => destruct b; cbn [negb]
          end); run_monad; eauto.
Qed.

(** The helper by itself, for any order and fill it is handed: it asks
    outbound balance for the order's counter amount and inbound balance
    for the order's base amount, at the maker's address and at the
    taker's; it passes exactly when the engine grants these four, and
    nothing else of the engine or of the fill has a say. *)
Theorem checkChannelBalances_order_amounts
    (order : Order.t) (fill : Fill.t) (engine : Engine) (w : World) :
  let maker := slice 3 (Order.payTo order) in
  let taker := slice 3 (Fill.takerPayTo fill) in
  ((FillOrder.checkChannelBalances order fill engine w).1 = Return tt <->
     isBalanceSufficient engine maker (Order.counterAmount order) true = true /\
     isBalanceSufficient engine maker (Order.baseAmount order) false = true /\
     isBalanceSufficient engine taker (Order.counterAmount order) true = true /\
     isBalanceSufficient engine taker (Order.baseAmount order) false = true) /\
  (forall (engine' : Engine) (fill' : Fill.t),
     Fill.takerPayTo fill' = Fill.takerPayTo fill ->
     isBalanceSufficient engine' maker (Order.counterAmount order) true
       = isBalanceSufficient engine maker (Order.counterAmount order) true ->
     isBalanceSufficient engine' maker (Order.baseAmount order) false
       = isBalanceSufficient engine maker (Order.baseAmount order) false ->
     isBalanceSufficient engine' taker (Order.counterAmount order) true
       = isBalanceSufficient engine taker (Order.counterAmount order) true ->
     isBalanceSufficient engine' taker (Order.baseAmount order) false
       = isBalanceSufficient engine taker (Order.baseAmount order) false ->
     FillOrder.checkChannelBalances order fill' engine' w
       = FillOrder.checkChannelBalances order fill engine w).
Proof.
  intros maker taker. split.
  - unfold FillOrder.checkChannelBalances. fold maker taker.
    destruct (isBalanceSufficient engine maker (Order.counterAmount order) true),
             (isBalanceSufficient engine maker (Order.baseAmount order) false),
             (isBalanceSufficient engine taker (Order.counterAmount order) true),
             (isBalanceSufficient engine taker (Order.baseAmount order) false);
      run_monad; cbn; intuition congruence.
  - intros engine' fill' Hpay H1 H2 H3 H4.
    unfold FillOrder.checkChannelBalances. rewrite Hpay. fold maker taker.
    now rewrite H1, H2, H3, H4.
Qed.

Lemma checkChannelBalances_order_amounts_witness :
  FillOrder.checkChannelBalances (Sample.order PLACED)
      (Fill.set_status FILL_ACCEPTED
         (Fill.mk "f1" "fill-7" "o1" "ln:taker" 1 FILL_CREATED))
      (mkEngine (fun _ => false) (fun _ => 0)
         (fun addr amount outbound =>
            bool_decide (amount = if outbound then 500000 else 100000))
         (fun pr => pr))
      (Sample.world (Sample.db_of (Sample.order PLACED)))
  = FillOrder.checkChannelBalances (Sample.order PLACED) Sample.fill1 Sample.engine
      (Sample.world (Sample.db_of (Sample.order PLACED))).
Proof.
  apply (proj2 (checkChannelBalances_order_amounts
                  (Sample.order PLACED) Sample.fill1 Sample.engine
                  (Sample.world (Sample.db_of (Sample.order PLACED)))));
    reflexivity.
Defined.

(** ** PlaceOrder: what lets an order be placed *)

Local Ltac found_docs Hf Hd :=
  let H := fresh in
  intros ? ? ? H; injection H as <-; rewrite Hf, Hd; intros [= <-] [= <-].

(** C1: a PlaceOrder call places the order (its stored status changes, the
    order:placed event goes out) only if the order and its two invoices
    were found, the engine reported the fee invoice and the deposit
    invoice paid, and each refund request is worth exactly the value of
    its invoice; when the order and its invoices are found and one of
    these conditions fails, the call throws a PublicError and leaves the
    store, hence the order's status, and the event bus as they were. *)
Theorem placeOrder_placed_only_if_paid_and_equal
    (engine : Engine) (params : PlaceOrder.Params) (w : World) :
  let r := (PlaceOrder.placeOrder engine params w).1 in
  let w' := (PlaceOrder.placeOrder engine params w).2 in
  (orders (db w') <> orders (db w) \/ emitted w' <> emitted w ->
   exists order feeInvoice depositInvoice,
     findOne (PlaceOrder.by_orderId (PlaceOrder.orderId params)) (orders (db w)) = Some order /\
     findOne (PlaceOrder.by_foreignId (Order._id order.2)) (feeInvoices (db w))
       = Some feeInvoice /\
     findOne (PlaceOrder.by_foreignId (Order._id order.2)) (depositInvoices (db w))
       = Some depositInvoice /\
     PlaceOrder.paid_and_equal engine params feeInvoice.2 depositInvoice.2) /\
  (forall order feeInvoice depositInvoice,
     findOne (PlaceOrder.by_orderId (PlaceOrder.orderId params)) (orders (db w)) = Some order ->
     findOne (PlaceOrder.by_foreignId (Order._id order.2)) (feeInvoices (db w))
       = Some feeInvoice ->
     findOne (PlaceOrder.by_foreignId (Order._id order.2)) (depositInvoices (db w))
       = Some depositInvoice ->
     ~ PlaceOrder.paid_and_equal engine params feeInvoice.2 depositInvoice.2 ->
     (exists msg, r = Throw (PublicError msg)) /\ db w' = db w /\ emitted w' = emitted w).
Proof.
  cbv zeta. unfold PlaceOrder.placeOrder. run_monad.
  destruct (findOne _ (orders (db w))) as [order|] eqn:Ho; cbn [fst snd].
  2:{ split; [intros [H|H]; congruence | intros; discriminate]. }
  destruct (findOne _ (feeInvoices (db w))) as [fee|] eqn:Hf.
  2:{ split; [intros [H|H]; cbn in H; congruence|].
      intros ? ? ? [= <-]; rewrite Hf; discriminate. }
  destruct (findOne _ (depositInvoices (db w))) as [dep|] eqn:Hd.
  2:{ split; [intros [H|H]; cbn in H; congruence|].
      intros ? ? ? [= <-] _; rewrite Hd; discriminate. }
  unfold PlaceOrder.place_checked, PlaceOrder.paid_and_equal.
  destruct (isInvoicePaid engine (Invoice.paymentRequest fee.2)) eqn:Hpf; cbn [negb].
  2:{ run_monad. split; [intros [H|H]; congruence|].
      found_docs Hf Hd; intros _; eauto. }
  destruct (isInvoicePaid engine (Invoice.paymentRequest dep.2)) eqn:Hpd; cbn [negb].
  2:{ run_monad. split; [intros [H|H]; congruence|].
      found_docs Hf Hd; intros _; eauto. }
  destruct (isBalanceSufficient engine _ (Order.counterAmount order.2) true); cbn [negb].
  2:{ run_monad. split; [intros [H|H]; congruence|].
      found_docs Hf Hd; intros _; eauto. }
  destruct (isBalanceSufficient engine _ (Order.baseAmount order.2) false); cbn [negb].
  2:{ run_monad. split; [intros [H|H]; congruence|].
      found_docs Hf Hd; intros _; eauto. }
  destruct (Z.eqb_spec (getInvoiceValue engine (Invoice.paymentRequest fee.2))
              (getInvoiceValue engine (PlaceOrder.feeRefundPaymentRequest params)))
    as [Hvf|Hvf]; cbn [negb].
  2:{ run_monad. split; [intros [H|H]; congruence|].
      found_docs Hf Hd; intros _; eauto. }
  destruct (Z.eqb_spec (getInvoiceValue engine (Invoice.paymentRequest dep.2))
              (getInvoiceValue engine (PlaceOrder.depositRefundPaymentRequest params)))
    as [Hvd|Hvd]; cbn [negb].
  2:{ run_monad. split; [intros [H|H]; congruence|].
      found_docs Hf Hd; intros _; eauto. }
  split.
  - intros _. exists order, fee, dep. auto 10.
  - found_docs Hf Hd; intros Hn. exfalso. apply Hn. auto.
Qed.

Lemma placeOrder_placed_only_if_paid_and_equal_witness :
  PlaceOrder.paid_and_equal Sample.engine Sample.place_params
    (Sample.incoming "o1" ORDER FEE "fee-o1") (Sample.incoming "o1" ORDER DEPOSIT "dep-o1").
Proof.
  destruct (proj1 (placeOrder_placed_only_if_paid_and_equal Sample.engine Sample.place_params
                     (Sample.world (Sample.db_of (Sample.order CREATED)))))
    as (order & fee & dep & Ho & Hf & Hd & H).
  - left. vm_compute. discriminate.
  - vm_compute in Ho, Hf, Hd.
    injection Ho as <-. injection Hf as <-. injection Hd as <-. exact H.
Defined.

(** ** PlaceOrder: a call that passes its preconditions *)

Lemma placeOrder_checked (engine : Engine) (params : PlaceOrder.Params) (w : World)
    (order : Doc Order.t) (feeInvoice depositInvoice : Doc Invoice.t) :
  findOne (PlaceOrder.by_orderId (PlaceOrder.orderId params)) (orders (db w)) = Some order ->
  findOne (PlaceOrder.by_foreignId (Order._id order.2)) (feeInvoices (db w)) = Some feeInvoice ->
  findOne (PlaceOrder.by_foreignId (Order._id order.2)) (depositInvoices (db w))
    = Some depositInvoice ->
  PlaceOrder.paid_and_equal engine params feeInvoice.2 depositInvoice.2 ->
  PlaceOrder.balances_sufficient engine order.2 ->
  PlaceOrder.placeOrder engine params w =
    if bool_decide (Order.status order.2 = CANCELLED)
    then PlaceOrder.refund_cancelled engine order (PlaceOrder.stored_refunds params order.2 w)
    else (eventHandler_emit "order:placed" (Order.set_status PLACED order.2) ;;;
          logger_info "order:placed" ;;;
          ret EmptyResponse)
           (mkWorld (set_orders (save (order.1, Order.set_status PLACED order.2))
                       (db (PlaceOrder.stored_refunds params order.2 w)))
                    (logs (PlaceOrder.stored_refunds params order.2 w))
                    (emitted w) (messenger w) (payments w)).
Proof.
  intros Ho Hf Hd (Hpf & Hpd & Hvf & Hvd) (Hbo & Hbi).
  unfold PlaceOrder.placeOrder. run_monad. rewrite Ho, Hf, Hd.
  unfold PlaceOrder.place_checked.
  rewrite Hpf, Hpd, Hbo, Hbi, Hvf, Hvd, !Z.eqb_refl. cbn [negb]. run_monad.
  destruct (bool_decide (Order.status order.2 = CANCELLED)); reflexivity.
Qed.

(** A call that returns has found the order and its invoices and passed
    every check on them. *)
Lemma placeOrder_Return (engine : Engine) (params : PlaceOrder.Params) (w : World)
    (r : Response) :
  (PlaceOrder.placeOrder engine params w).1 = Return r ->
  exists order feeInvoice depositInvoice,
    findOne (PlaceOrder.by_orderId (PlaceOrder.orderId params)) (orders (db w)) = Some order /\
    findOne (PlaceOrder.by_foreignId (Order._id order.2)) (feeInvoices (db w))
      = Some feeInvoice /\
    findOne (PlaceOrder.by_foreignId (Order._id order.2)) (depositInvoices (db w))
      = Some depositInvoice /\
    PlaceOrder.paid_and_equal engine params feeInvoice.2 depositInvoice.2 /\
    PlaceOrder.balances_sufficient engine order.2.
Proof.
  unfold PlaceOrder.placeOrder. run_monad.
  destruct (findOne _ (orders (db w))) as [order|] eqn:Ho; [|discriminate].
  destruct (findOne _ (feeInvoices (db w))) as [fee|] eqn:Hf; [|discriminate].
  destruct (findOne _ (depositInvoices (db w))) as [dep|] eqn:Hd; [|discriminate].
  unfold PlaceOrder.place_checked, PlaceOrder.paid_and_equal, PlaceOrder.balances_sufficient.
  destruct (isInvoicePaid engine (Invoice.paymentRequest fee.2)) eqn:Hpf; [|discriminate].
  destruct (isInvoicePaid engine (Invoice.paymentRequest dep.2)) eqn:Hpd; [|discriminate].
  destruct (isBalanceSufficient engine _ (Order.counterAmount order.2) true) eqn:Hbo;
    [|discriminate].
  destruct (isBalanceSufficient engine _ (Order.baseAmount order.2) false) eqn:Hbi;
    [|discriminate].
  destruct (Z.eqb_spec (getInvoiceValue engine (Invoice.paymentRequest fee.2))
              (getInvoiceValue engine (PlaceOrder.feeRefundPaymentRequest params)));
    [|discriminate].
  destruct (Z.eqb_spec (getInvoiceValue engine (Invoice.paymentRequest dep.2))
              (getInvoiceValue engine (PlaceOrder.depositRefundPaymentRequest params)));
    [|discriminate].
  intros _. exists order, fee, dep. auto 10.
Qed.

(** C9, amended: a successful PlaceOrder call on an order that is not
    cancelled has stored the two refund invoices, stored the order as
    PLACED and put one order:placed event carrying the placed order on the
    event bus, and it returns a single EmptyResponse at once; it neither
    waits for the messenger nor touches it, and its result carries no
    fill. *)
Theorem placeOrder_returns_once_placed
    (engine : Engine) (params : PlaceOrder.Params) (w : World)
    (order : Doc Order.t) (r : Response) :
  findOne (PlaceOrder.by_orderId (PlaceOrder.orderId params)) (orders (db w)) = Some order ->
  Order.status order.2 <> CANCELLED ->
  (PlaceOrder.placeOrder engine params w).1 = Return r ->
  PlaceOrder.placeOrder engine params w =
    (Return EmptyResponse,
     mkWorld
       (mkDb (<[order.1 := Order.set_status PLACED order.2]> (orders (db w)))
             (fills (db w)) (feeInvoices (db w)) (depositInvoices (db w))
             (feeRefundInvoices (db w)
                ++ [PlaceOrder.refund_fields (Order._id order.2)
                      (PlaceOrder.feeRefundPaymentRequest params)])
             (depositRefundInvoices (db w)
                ++ [PlaceOrder.refund_fields (Order._id order.2)
                      (PlaceOrder.depositRefundPaymentRequest params)]))
       (logs w ++ [(info, "Refund invoices have been stored on the Relayer");
                   (info, "order:placed")])
       (emitted w ++ [("order:placed", Order.set_status PLACED order.2)])
       (messenger w)
       (payments w)).
Proof.
  intros Ho Hst Hr.
  apply placeOrder_Return in Hr as (order' & fee & dep & Ho' & Hf & Hd & Hpe & Hb).
  rewrite Ho in Ho'. injection Ho' as <-.
  rewrite (placeOrder_checked engine params w order fee dep) by assumption.
  rewrite bool_decide_eq_false_2 by assumption.
  run_monad. unfold save, PlaceOrder.stored_refunds. cbn [fst snd db logs orders fills feeInvoices depositInvoices feeRefundInvoices depositRefundInvoices].
  now rewrite <- app_assoc.
Qed.

Lemma placeOrder_returns_once_placed_witness :
  PlaceOrder.placeOrder Sample.engine Sample.place_params
    (Sample.world (Sample.db_of (Sample.order CREATED))) =
  (Return EmptyResponse,
   mkWorld
     (mkDb [Sample.order PLACED] [Sample.fill1; Sample.fill2]
           (feeInvoices (Sample.db_of (Sample.order CREATED)))
           (depositInvoices (Sample.db_of (Sample.order CREATED)))
           [PlaceOrder.refund_fields "o1" "refund-fee"]
           [PlaceOrder.refund_fields "o1" "refund-dep"])
     [(info, "Refund invoices have been stored on the Relayer"); (info, "order:placed")]
     [("order:placed", Sample.order PLACED)] ∅ []).
Proof.
  apply (placeOrder_returns_once_placed Sample.engine Sample.place_params
           (Sample.world (Sample.db_of (Sample.order CREATED)))
           (0%nat, Sample.order CREATED) EmptyResponse).
  - reflexivity.
  - discriminate.
  - reflexivity.
Defined.

(** C9, as stated, fails: the call on a paid, funded, not cancelled order
    is complete while the messenger holds no fill for the order. *)
Lemma placeOrder_completes_without_fill :
  ~ PlaceOrder.completes_with_fill Sample.engine Sample.place_params
      (Sample.world (Sample.db_of (Sample.order CREATED))).
Proof.
  intros H.
  destruct (H EmptyResponse
              (PlaceOrder.placeOrder Sample.engine Sample.place_params
                 (Sample.world (Sample.db_of (Sample.order CREATED)))).2)
    as (order & fillId & Ho & Hm).
  - reflexivity.
  - vm_compute in Ho. injection Ho as <-.
    vm_compute in Hm. discriminate.
Qed.

(** ** PlaceOrder on a cancelled order *)

Lemma refund_run (engine : Engine) (m : InvoiceModel) (inv : Doc Invoice.t) (w : World) :
  PlaceOrder.refund engine m inv w =
    (Return tt,
     mkWorld (set_collection m (PlaceOrder.settled engine inv) (db w))
             (logs w) (emitted w) (messenger w) (payments w ++ PlaceOrder.due inv)).
Proof.
  unfold PlaceOrder.refund, PlaceOrder.settled, PlaceOrder.due.
  destruct (falsy _); run_monad; unfold save; cbn [fst snd].
  - reflexivity.
  - rewrite app_nil_r. destruct_world w. destruct m; reflexivity.
Qed.

Lemma by_foreignId_refund_fields (id pr : string) :
  PlaceOrder.by_foreignId id (PlaceOrder.refund_fields id pr) = true.
Proof. unfold PlaceOrder.by_foreignId. now apply bool_decide_eq_true_2. Qed.

(** The refund invoice the cancelled branch reads back: the oldest one on
    record for the order, or the one just stored when there was none. *)
Lemma found_refund (id pr : string) (l : list Invoice.t) :
  exists inv,
    findOne (PlaceOrder.by_foreignId id) (l ++ [PlaceOrder.refund_fields id pr]) = Some inv /\
    (findOne (PlaceOrder.by_foreignId id) l = None ->
     inv = (List.length l, PlaceOrder.refund_fields id pr)).
Proof.
  rewrite findOne_snoc by apply by_foreignId_refund_fields.
  destruct (findOne _ l) as [d|]; eauto. eexists; split; eauto. discriminate.
Qed.

(** C4, amended: a PlaceOrder call on a CANCELLED order that passes its
    preconditions stores the two refund invoices, reads back the oldest
    fee refund invoice and the oldest deposit refund invoice on record for
    the order, pays each of the two that carries no preimage yet and saves
    the preimage on it, pays nothing for one that already carries a
    preimage, and returns [{}]; the orders, the order's status with them,
    and the event bus are as before.  When the order had no refund
    invoice on record, the two read back are the two just stored, so both
    refund requests of the call are paid. *)
Theorem placeOrder_cancelled_refunds_unpaid
    (engine : Engine) (params : PlaceOrder.Params) (w : World)
    (order : Doc Order.t) (feeInvoice depositInvoice : Doc Invoice.t) :
  findOne (PlaceOrder.by_orderId (PlaceOrder.orderId params)) (orders (db w)) = Some order ->
  findOne (PlaceOrder.by_foreignId (Order._id order.2)) (feeInvoices (db w)) = Some feeInvoice ->
  findOne (PlaceOrder.by_foreignId (Order._id order.2)) (depositInvoices (db w))
    = Some depositInvoice ->
  PlaceOrder.paid_and_equal engine params feeInvoice.2 depositInvoice.2 ->
  PlaceOrder.balances_sufficient engine order.2 ->
  Order.status order.2 = CANCELLED ->
  let w1 := PlaceOrder.stored_refunds params order.2 w in
  exists feeRefundInvoice depositRefundInvoice,
    findOne (PlaceOrder.by_foreignId (Order._id order.2)) (feeRefundInvoices (db w1))
      = Some feeRefundInvoice /\
    findOne (PlaceOrder.by_foreignId (Order._id order.2)) (depositRefundInvoices (db w1))
      = Some depositRefundInvoice /\
    PlaceOrder.placeOrder engine params w =
      (Return EmptyObject,
       mkWorld
         (mkDb (orders (db w)) (fills (db w)) (feeInvoices (db w)) (depositInvoices (db w))
               (PlaceOrder.settled engine feeRefundInvoice (feeRefundInvoices (db w1)))
               (PlaceOrder.settled engine depositRefundInvoice (depositRefundInvoices (db w1))))
         (logs w1 ++ [(info, "Order is in cancelled state, refunding");
                      (info, "Refunding complete")])
         (emitted w)
         (messenger w)
         (payments w ++ PlaceOrder.due feeRefundInvoice ++ PlaceOrder.due depositRefundInvoice)) /\
    (findOne (PlaceOrder.by_foreignId (Order._id order.2)) (feeRefundInvoices (db w)) = None ->
     feeRefundInvoice =
       (List.length (feeRefundInvoices (db w)),
        PlaceOrder.refund_fields (Order._id order.2) (PlaceOrder.feeRefundPaymentRequest params))) /\
    (findOne (PlaceOrder.by_foreignId (Order._id order.2)) (depositRefundInvoices (db w)) = None ->
     depositRefundInvoice =
       (List.length (depositRefundInvoices (db w)),
        PlaceOrder.refund_fields (Order._id order.2)
          (PlaceOrder.depositRefundPaymentRequest params))).
Proof.
  intros Ho Hf Hd Hpe Hb Hst w1.
  destruct (found_refund (Order._id order.2) (PlaceOrder.feeRefundPaymentRequest params)
              (feeRefundInvoices (db w))) as (fr & Hfr & Hfr0).
  destruct (found_refund (Order._id order.2) (PlaceOrder.depositRefundPaymentRequest params)
              (depositRefundInvoices (db w))) as (dr & Hdr & Hdr0).
  exists fr, dr. repeat split; auto.
  rewrite (placeOrder_checked engine params w order feeInvoice depositInvoice) by assumption.
  rewrite bool_decide_eq_true_2 by assumption.
  unfold PlaceOrder.refund_cancelled. run_monad.
  fold w1. change (feeRefundInvoices (db w1)) with
    (feeRefundInvoices (db w) ++
       [PlaceOrder.refund_fields (Order._id order.2) (PlaceOrder.feeRefundPaymentRequest params)]).
  change (depositRefundInvoices (db w1)) with
    (depositRefundInvoices (db w) ++
       [PlaceOrder.refund_fields (Order._id order.2)
          (PlaceOrder.depositRefundPaymentRequest params)]).
  rewrite Hfr, Hdr. rewrite !refund_run. run_monad.
  cbn. rewrite <- !app_assoc. reflexivity.
Qed.

Lemma placeOrder_cancelled_refunds_unpaid_witness :
  payments (PlaceOrder.placeOrder Sample.engine Sample.place_params
              (Sample.world (Sample.db_of (Sample.order CANCELLED)))).2
  = ["refund-fee"; "refund-dep"].
Proof.
  destruct (placeOrder_cancelled_refunds_unpaid Sample.engine Sample.place_params
              (Sample.world (Sample.db_of (Sample.order CANCELLED)))
              (0%nat, Sample.order CANCELLED)
              (0%nat, Sample.incoming "o1" ORDER FEE "fee-o1")
              (0%nat, Sample.incoming "o1" ORDER DEPOSIT "dep-o1"))
    as (fr & dr & _ & _ & Hrun & Hfr & Hdr);
    [reflexivity | reflexivity | reflexivity | repeat split | repeat split | reflexivity |].
  rewrite Hrun, (Hfr eq_refl), (Hdr eq_refl). reflexivity.
Defined.

(** C4, as stated, fails: a second PlaceOrder call on the same cancelled
    order, whose refunds the first call paid, passes the same
    preconditions and pays nothing. *)
Lemma placeOrder_cancelled_pays_nothing_twice :
  let w1 := (PlaceOrder.placeOrder Sample.engine Sample.place_params
               (Sample.world (Sample.db_of (Sample.order CANCELLED)))).2 in
  ~ PlaceOrder.pays_two_refunds Sample.engine Sample.place_params w1.
Proof.
  intros w1 (a & b & H). vm_compute in H. discriminate.
Qed.

(** ** PlaceOrder without the order's invoices *)

(** C8, on the code: with the order's fee invoice missing, the call logs
    an error and throws the PublicError asking for a new order, and the
    order is left as it was, CREATED, not cancelled. *)
Theorem placeOrder_missing_invoice_keeps_order :
  PlaceOrder.placeOrder Sample.engine Sample.place_params
    (Sample.world Sample.db_without_fee_invoice) =
  (Throw (PublicError
            "Could not place order. Please create another order and try again. Order id: order-42"),
   mkWorld Sample.db_without_fee_invoice
           [(error, "Fee invoice could not be found for order")] [] ∅ [])
  /\ orders Sample.db_without_fee_invoice = [Sample.order CREATED].
Proof. split; reflexivity. Qed.

(** ** FillOrder: the three ways a call ends *)

Lemma first_failure_None_3 (a b c : option Err) :
  FillOrder.first_failure [a; b; c] = None <-> a = None /\ b = None /\ c = None.
Proof. destruct a, b, c; simpl; intuition congruence. Qed.

(** What [settle] does up to the balance check, for a fill whose invoices
    are on record. *)
Lemma settle_run (engine : Engine) (params : FillOrder.Params) (w : World)
    (fill : Doc Fill.t) (order : Doc Order.t) (feeInvoice depositInvoice : Doc Invoice.t) :
  findOne (FillOrder.by_fill_invoice (Fill._id fill.2) INCOMING FEE) (feeInvoices (db w))
    = Some feeInvoice ->
  findOne (FillOrder.by_fill_invoice (Fill._id fill.2) INCOMING DEPOSIT) (depositInvoices (db w))
    = Some depositInvoice ->
  FillOrder.settle engine params fill order w =
    match FillOrder.paid_failure engine order.2 feeInvoice.2 depositInvoice.2 with
    | Some e => (Throw e, w)
    | None =>
    match FillOrder.refund_value_failure engine params order.2 feeInvoice.2 depositInvoice.2 with
    | Some e =>
        (Throw e,
         logged error
           (if getInvoiceValue engine (Invoice.paymentRequest feeInvoice.2)
               =? getInvoiceValue engine (FillOrder.feeRefundPaymentRequest params)
            then "Deposit invoice refund amount does not equal deposit invoice amount"
            else "Fee invoice refund amount does not equal fee invoice amount") w)
    | None =>
        let w1 :=
          mkWorld
            (mkDb (orders (db w)) (fills (db w)) (feeInvoices (db w)) (depositInvoices (db w))
                  (feeRefundInvoices (db w) ++ [FillOrder.fee_refund fill.2 params])
                  (depositRefundInvoices (db w) ++ [FillOrder.deposit_refund fill.2 params]))
            (logs w ++ [(info, "Refund invoices have been stored on the Relayer")])
            (emitted w) (messenger w) (payments w) in
        match FillOrder.checkChannelBalances order.2 fill.2 engine w1 with
        | (Throw e, w2) => (Throw e, w2)
        | (Return _, w2) =>
            if bool_decide (Order.status order.2 = PLACED) then
              (Return EmptyObject,
               mkWorld
                 (mkDb (<[order.1 := Order.set_status FILLED order.2]> (orders (db w2)))
                       (<[fill.1 := Fill.set_status FILL_ACCEPTED fill.2]> (fills (db w2)))
                       (feeInvoices (db w2)) (depositInvoices (db w2))
                       (feeRefundInvoices (db w2)) (depositRefundInvoices (db w2)))
                 (logs w2 ++ [(info, "order:filling")])
                 (emitted w2)
                 (<["fill:" +:+ Order._id order.2 := Fill.fillId fill.2]> (messenger w2))
                 (payments w2))
            else
              (Throw (PublicError (FillOrder.ORDER_NOT_PLACED (Order.orderId order.2))),
               mkWorld
                 (mkDb (orders (db w2)) (fills (db w2))
                       (feeInvoices (db w2)) (depositInvoices (db w2))
                       (save (List.length (feeRefundInvoices (db w)),
                              FillOrder.paid_back engine (FillOrder.fee_refund fill.2 params))
                             (feeRefundInvoices (db w2)))
                       (save (List.length (depositRefundInvoices (db w)),
                              FillOrder.paid_back engine (FillOrder.deposit_refund fill.2 params))
                             (depositRefundInvoices (db w2))))
                 (logs w2) (emitted w2) (messenger w2)
                 (payments w2 ++ [FillOrder.feeRefundPaymentRequest params;
                                  FillOrder.depositRefundPaymentRequest params]))
        end
    end
    end.
Proof.
  intros Hf Hd.
  unfold FillOrder.settle, FillOrder.invoicesForFill. run_monad. rewrite Hf, Hd. run_monad.
  unfold FillOrder.paid_failure, FillOrder.refund_value_failure.
  destruct (isInvoicePaid engine (Invoice.paymentRequest feeInvoice.2)); cbn [negb]; [|reflexivity].
  destruct (isInvoicePaid engine (Invoice.paymentRequest depositInvoice.2));
    cbn [negb]; [|reflexivity].
  destruct (Z.eqb _ _); cbn [negb]; [|reflexivity].
  destruct (Z.eqb _ _); cbn [negb]; [|reflexivity].
  unfold FillOrder.createRefundInvoices, FillOrder.paid_back,
    FillOrder.fee_refund, FillOrder.deposit_refund. run_monad.
  match goal with
  | |- context [FillOrder.checkChannelBalances ?o ?f ?e ?w1] =>
      destruct (FillOrder.checkChannelBalances o f e w1) as [[[]|e'] w2]
  end; [|reflexivity].
  destruct (bool_decide (Order.status order.2 = PLACED)); cbn [negb].
  - reflexivity.
  - run_monad. unfold save.
    cbn [fst snd Invoice.paymentRequest]. rewrite <- app_assoc. reflexivity.
Qed.

Lemma lookup_run (params : FillOrder.Params) (w : World) :
  FillOrder.lookup params w =
    (match findOne (FillOrder.by_fillId (FillOrder.fillId params)) (fills (db w)) with
     | None => Throw (Error ("No fill with ID " +:+ FillOrder.fillId params +:+ "."))
     | Some fill =>
         match findOne (FillOrder.by__id (Fill.order_id fill.2)) (orders (db w)) with
         | None =>
             Throw (Error ("No order associated with fill " +:+ Fill.fillId fill.2 +:+ "."))
         | Some order => Return (fill, order)
         end
     end, w).
Proof.
  unfold FillOrder.lookup. run_monad.
  destruct (findOne _ (fills (db w))) as [fill|]; [|reflexivity].
  destruct (findOne _ (orders (db w))); reflexivity.
Qed.

(** A call that passes every precondition has its four records. *)
Lemma precondition_failure_None (engine : Engine) (params : FillOrder.Params) (d : Db) :
  FillOrder.precondition_failure engine params d = None ->
  exists fill order feeInvoice depositInvoice,
    findOne (FillOrder.by_fillId (FillOrder.fillId params)) (fills d) = Some fill /\
    findOne (FillOrder.by__id (Fill.order_id fill.2)) (orders d) = Some order /\
    findOne (FillOrder.by_fill_invoice (Fill._id fill.2) INCOMING FEE) (feeInvoices d)
      = Some feeInvoice /\
    findOne (FillOrder.by_fill_invoice (Fill._id fill.2) INCOMING DEPOSIT) (depositInvoices d)
      = Some depositInvoice /\
    FillOrder.paid_failure engine order.2 feeInvoice.2 depositInvoice.2 = None /\
    FillOrder.refund_value_failure engine params order.2 feeInvoice.2 depositInvoice.2 = None /\
    FillOrder.balance_failure engine order.2 fill.2 = None.
Proof.
  unfold FillOrder.precondition_failure, FillOrder.with_records.
  destruct (findOne _ (fills d)) as [fill|] eqn:Hfill; [|discriminate].
  destruct (findOne _ (orders d)) as [order|] eqn:Horder; [|discriminate].
  destruct (findOne _ (feeInvoices d)) as [fee|] eqn:Hf; [|discriminate].
  destruct (findOne _ (depositInvoices d)) as [dep|] eqn:Hd; [|discriminate].
  intros H. apply first_failure_None_3 in H as (H1 & H2 & H3).
  exists fill, order, fee, dep. auto 10.
Qed.

(** A call that fails a precondition throws that precondition's error and
    accepts nothing: orders, fills, incoming invoices, messenger and
    payments are as before. *)
Lemma fillOrder_precondition_failure (engine : Engine) (params : FillOrder.Params)
    (w : World) (e : Err) :
  FillOrder.precondition_failure engine params (db w) = Some e ->
  exists w',
    FillOrder.fillOrder engine params w = (Throw e, w') /\
    orders (db w') = orders (db w) /\ fills (db w') = fills (db w) /\
    feeInvoices (db w') = feeInvoices (db w) /\
    depositInvoices (db w') = depositInvoices (db w) /\
    emitted w' = emitted w /\ messenger w' = messenger w /\ payments w' = payments w.
Proof.
  unfold FillOrder.precondition_failure, FillOrder.with_records, FillOrder.fillOrder.
  unfold bind at 1. rewrite lookup_run.
  destruct (findOne _ (fills (db w))) as [fill|]; [|intros [= <-]; eauto 10].
  destruct (findOne _ (orders (db w))) as [order|]; [|intros [= <-]; eauto 10].
  cbn [fst snd].
  destruct (findOne _ (feeInvoices (db w))) as [fee|] eqn:Hf.
  2:{ intros [= <-]. unfold FillOrder.settle, FillOrder.invoicesForFill. run_monad.
      rewrite Hf. eauto 10. }
  destruct (findOne _ (depositInvoices (db w))) as [dep|] eqn:Hd.
  2:{ intros [= <-]. unfold FillOrder.settle, FillOrder.invoicesForFill. run_monad.
      rewrite Hf, Hd. eauto 10. }
  rewrite (settle_run engine params w fill order fee dep Hf Hd).
  cbn [FillOrder.first_failure].
  destruct (FillOrder.paid_failure _ _ _ _) as [e1|]; [intros [= <-]; eauto 10|].
  destruct (FillOrder.refund_value_failure _ _ _ _ _) as [e2|]; [intros [= <-]; eauto 10|].
  intros Hb. cbv zeta.
  match goal with
  | |- context [FillOrder.checkChannelBalances ?o ?f ?en ?w1] =>
      pose proof (checkChannelBalances_run o f en w1) as Hrun
  end.
  destruct (FillOrder.balance_failure _ _ _) as [e3|]; [|discriminate].
  injection Hb as <-. destruct Hrun as [msg ->]. eauto 10.
Qed.

(** A call that passes every precondition, run up to the test of the
    order's status. *)
Ltac pass_preconditions engine params w fill order Hfill Horder Hpre :=
  let fill' := fresh "fill'" in
  let order' := fresh "order'" in
  let fee := fresh "fee" in
  let dep := fresh "dep" in
  let Hfill' := fresh "Hfill'" in
  let Horder' := fresh "Horder'" in
  let Hf := fresh "Hf" in
  let Hd := fresh "Hd" in
  let Hp := fresh "Hp" in
  let Hv := fresh "Hv" in
  let Hb := fresh "Hb" in
  let Hrun := fresh "Hrun" in
  apply precondition_failure_None in Hpre
    as (fill' & order' & fee & dep & Hfill' & Horder' & Hf & Hd & Hp & Hv & Hb);
  rewrite Hfill in Hfill'; injection Hfill' as <-;
  rewrite Horder in Horder'; injection Horder' as <-;
  unfold FillOrder.fillOrder; unfold bind at 1; rewrite lookup_run, Hfill, Horder;
  cbn [fst snd];
  rewrite (settle_run engine params w fill order fee dep Hf Hd), Hp, Hv; cbv zeta;
  match goal with
  | |- context [FillOrder.checkChannelBalances ?o ?f ?en ?w1] =>
      pose proof (checkChannelBalances_run o f en w1) as Hrun
  end;
  rewrite Hb in Hrun; rewrite Hrun.

(** A call that passes every precondition and holds an order that is not
    PLACED: what it returns and the world it leaves. *)
Lemma fillOrder_not_placed
    (engine : Engine) (params : FillOrder.Params) (w : World)
    (fill : Doc Fill.t) (order : Doc Order.t) :
  findOne (FillOrder.by_fillId (FillOrder.fillId params)) (fills (db w)) = Some fill ->
  findOne (FillOrder.by__id (Fill.order_id fill.2)) (orders (db w)) = Some order ->
  FillOrder.precondition_failure engine params (db w) = None ->
  Order.status order.2 <> PLACED ->
  FillOrder.fillOrder engine params w =
    (Throw (PublicError (FillOrder.ORDER_NOT_PLACED (Order.orderId order.2))),
     mkWorld
       (mkDb (orders (db w)) (fills (db w)) (feeInvoices (db w)) (depositInvoices (db w))
             (feeRefundInvoices (db w)
                ++ [FillOrder.paid_back engine (FillOrder.fee_refund fill.2 params)])
             (depositRefundInvoices (db w)
                ++ [FillOrder.paid_back engine (FillOrder.deposit_refund fill.2 params)]))
       (logs w ++ [(info, "Refund invoices have been stored on the Relayer")])
       (emitted w)
       (messenger w)
       (payments w ++ [FillOrder.feeRefundPaymentRequest params;
                       FillOrder.depositRefundPaymentRequest params])).
Proof.
  intros Hfill Horder Hpre Hst.
  pass_preconditions engine params w fill order Hfill Horder Hpre.
  rewrite bool_decide_eq_false_2 by assumption.
  cbn [db logs emitted messenger payments orders fills feeInvoices depositInvoices
       feeRefundInvoices depositRefundInvoices].
  now rewrite !save_created.
Qed.

(** C3: a FillOrder call that passes every invoice and balance
    precondition but holds an order whose status is not PLACED pays the
    fill's fee refund and deposit refund, stores each of the fill's two
    refund invoices with the preimage of its payment, and throws the
    PublicError built from ORDER_NOT_PLACED; orders, fills and messenger
    are as before the call: the fill is not accepted, the order not
    claimed, no fill is announced. *)
Theorem fillOrder_not_placed_refunds
    (engine : Engine) (params : FillOrder.Params) (w : World)
    (fill : Doc Fill.t) (order : Doc Order.t) :
  findOne (FillOrder.by_fillId (FillOrder.fillId params)) (fills (db w)) = Some fill ->
  findOne (FillOrder.by__id (Fill.order_id fill.2)) (orders (db w)) = Some order ->
  FillOrder.precondition_failure engine params (db w) = None ->
  Order.status order.2 <> PLACED ->
  FillOrder.fillOrder engine params w =
    (Throw (PublicError (FillOrder.ORDER_NOT_PLACED (Order.orderId order.2))),
     mkWorld
       (mkDb (orders (db w)) (fills (db w)) (feeInvoices (db w)) (depositInvoices (db w))
             (feeRefundInvoices (db w)
                ++ [FillOrder.paid_back engine (FillOrder.fee_refund fill.2 params)])
             (depositRefundInvoices (db w)
                ++ [FillOrder.paid_back engine (FillOrder.deposit_refund fill.2 params)]))
       (logs w ++ [(info, "Refund invoices have been stored on the Relayer")])
       (emitted w)
       (messenger w)
       (payments w ++ [FillOrder.feeRefundPaymentRequest params;
                       FillOrder.depositRefundPaymentRequest params])).
Proof.
  intros Hfill Horder Hpre Hst.
  pass_preconditions engine params w fill order Hfill Horder Hpre.
  rewrite bool_decide_eq_false_2 by assumption.
  cbn [db logs emitted messenger payments orders fills feeInvoices depositInvoices
       feeRefundInvoices depositRefundInvoices].
  now rewrite !save_created.
Qed.

Lemma fillOrder_not_placed_refunds_witness :
  FillOrder.fillOrder Sample.engine Sample.fill_params1
    (Sample.world (Sample.db_of (Sample.order CANCELLED))) =
  (Throw (PublicError
            "Order is not in a placed status, refunds have been executed. Order id: order-42"),
   mkWorld
     (mkDb [Sample.order CANCELLED] [Sample.fill1; Sample.fill2]
           (feeInvoices (Sample.db_of (Sample.order CANCELLED)))
           (depositInvoices (Sample.db_of (Sample.order CANCELLED)))
           [Invoice.mk "f1" (Some FILL) (Some OUTGOING) (Some FEE) "refund-fee-f1"
              (Some "preimage:refund-fee-f1")]
           [Invoice.mk "f1" (Some FILL) (Some OUTGOING) (Some DEPOSIT) "refund-dep-f1"
              (Some "preimage:refund-dep-f1")])
     [(info, "Refund invoices have been stored on the Relayer")] [] ∅
     ["refund-fee-f1"; "refund-dep-f1"]).
Proof.
  apply (fillOrder_not_placed_refunds Sample.engine Sample.fill_params1
           (Sample.world (Sample.db_of (Sample.order CANCELLED)))
           (0%nat, Sample.fill1) (0%nat, Sample.order CANCELLED)).
  - reflexivity.
  - reflexivity.
  - reflexivity.
  - discriminate.
Defined.

(** A call that passes every precondition and holds a PLACED order accepts
    the fill, marks the order claimed and announces the fill. *)
Lemma fillOrder_placed (engine : Engine) (params : FillOrder.Params) (w : World)
    (fill : Doc Fill.t) (order : Doc Order.t) :
  findOne (FillOrder.by_fillId (FillOrder.fillId params)) (fills (db w)) = Some fill ->
  findOne (FillOrder.by__id (Fill.order_id fill.2)) (orders (db w)) = Some order ->
  FillOrder.precondition_failure engine params (db w) = None ->
  Order.status order.2 = PLACED ->
  FillOrder.fillOrder engine params w =
    (Return EmptyObject,
     mkWorld
       (mkDb (<[order.1 := Order.set_status FILLED order.2]> (orders (db w)))
             (<[fill.1 := Fill.set_status FILL_ACCEPTED fill.2]> (fills (db w)))
             (feeInvoices (db w)) (depositInvoices (db w))
             (feeRefundInvoices (db w) ++ [FillOrder.fee_refund fill.2 params])
             (depositRefundInvoices (db w) ++ [FillOrder.deposit_refund fill.2 params]))
       (logs w ++ [(info, "Refund invoices have been stored on the Relayer");
                   (info, "order:filling")])
       (emitted w)
       (<["fill:" +:+ Order._id order.2 := Fill.fillId fill.2]> (messenger w))
       (payments w)).
Proof.
  intros Hfill Horder Hpre Hst.
  pass_preconditions engine params w fill order Hfill Horder Hpre.
  rewrite bool_decide_eq_true_2 by assumption.
  cbn [db logs emitted messenger payments orders fills feeInvoices depositInvoices
       feeRefundInvoices depositRefundInvoices].
  now rewrite <- app_assoc.
Qed.

(** ** The balance checks of a FillOrder call *)

(** C10: in every FillOrder call that comes to its balance checks (the
    fill, its parent order and the fill's two invoices are on record, the
    invoices paid and the refund values equal), the four checks are made
    with the parent order's amounts: outbound balance for the order's
    counter amount and inbound balance for the order's base amount, at the
    maker's address and at the taker's alike.  The engine's answers to
    these four queries decide the call: the first one refused gives its
    balance error, and with all four granted the call goes on to the
    status test.  No other balance answer of the engine, such as one for
    the fill's fill amount, has any effect on the call. *)
Theorem fillOrder_balance_checks_use_order_amounts
    (engine : Engine) (params : FillOrder.Params) (w : World)
    (fill : Doc Fill.t) (order : Doc Order.t) (feeInvoice depositInvoice : Doc Invoice.t) :
  findOne (FillOrder.by_fillId (FillOrder.fillId params)) (fills (db w)) = Some fill ->
  findOne (FillOrder.by__id (Fill.order_id fill.2)) (orders (db w)) = Some order ->
  findOne (FillOrder.by_fill_invoice (Fill._id fill.2) INCOMING FEE) (feeInvoices (db w))
    = Some feeInvoice ->
  findOne (FillOrder.by_fill_invoice (Fill._id fill.2) INCOMING DEPOSIT) (depositInvoices (db w))
    = Some depositInvoice ->
  FillOrder.paid_failure engine order.2 feeInvoice.2 depositInvoice.2 = None ->
  FillOrder.refund_value_failure engine params order.2 feeInvoice.2 depositInvoice.2 = None ->
  let id := Order.orderId order.2 in
  let maker := slice 3 (Order.payTo order.2) in
  let taker := slice 3 (Fill.takerPayTo fill.2) in
  let counterAmount := Order.counterAmount order.2 in
  let baseAmount := Order.baseAmount order.2 in
  (FillOrder.fillOrder engine params w).1 =
    (if negb (isBalanceSufficient engine maker counterAmount true)
     then Throw (PublicError (FillOrder.INSUFFICIENT_FUNDS_OUTBOUND id))
     else if negb (isBalanceSufficient engine maker baseAmount false)
     then Throw (PublicError (FillOrder.INSUFFICIENT_FUNDS_INBOUND id))
     else if negb (isBalanceSufficient engine taker counterAmount true)
     then Throw (PublicError (FillOrder.INSUFFICIENT_FUNDS_OUTBOUND id))
     else if negb (isBalanceSufficient engine taker baseAmount false)
     then Throw (PublicError (FillOrder.INSUFFICIENT_FUNDS_INBOUND id))
     else if bool_decide (Order.status order.2 = PLACED)
     then Return EmptyObject
     else Throw (PublicError (FillOrder.ORDER_NOT_PLACED id))) /\
  (forall engine' : Engine,
     isInvoicePaid engine' = isInvoicePaid engine ->
     getInvoiceValue engine' = getInvoiceValue engine ->
     payInvoice engine' = payInvoice engine ->
     isBalanceSufficient engine' maker counterAmount true
       = isBalanceSufficient engine maker counterAmount true ->
     isBalanceSufficient engine' maker baseAmount false
       = isBalanceSufficient engine maker baseAmount false ->
     isBalanceSufficient engine' taker counterAmount true
       = isBalanceSufficient engine taker counterAmount true ->
     isBalanceSufficient engine' taker baseAmount false
       = isBalanceSufficient engine taker baseAmount false ->
     FillOrder.fillOrder engine' params w = FillOrder.fillOrder engine params w).
Proof.
  intros Hfill Horder Hf Hd Hp Hv id maker taker counterAmount baseAmount. split.
  - unfold FillOrder.fillOrder. unfold bind at 1. rewrite lookup_run, Hfill, Horder.
    cbn [fst snd].
    rewrite (settle_run engine params w fill order feeInvoice depositInvoice Hf Hd), Hp, Hv.
    cbv zeta.
    match goal with
    | |- context [FillOrder.checkChannelBalances ?o ?f ?en ?w1] =>
        pose proof (checkChannelBalances_run o f en w1) as Hrun
    end.
    unfold FillOrder.balance_failure in Hrun.
    fold id maker taker counterAmount baseAmount in Hrun.
    destruct (isBalanceSufficient engine maker counterAmount true); cbn [negb] in Hrun |- *;
      [|destruct Hrun as [line ->]; reflexivity].
    destruct (isBalanceSufficient engine maker baseAmount false); cbn [negb] in Hrun |- *;
      [|destruct Hrun as [line ->]; reflexivity].
    destruct (isBalanceSufficient engine taker counterAmount true); cbn [negb] in Hrun |- *;
      [|destruct Hrun as [line ->]; reflexivity].
    destruct (isBalanceSufficient engine taker baseAmount false); cbn [negb] in Hrun |- *;
      [|destruct Hrun as [line ->]; reflexivity].
    rewrite Hrun. now destruct (bool_decide (Order.status order.2 = PLACED)).
  - intros engine' Hpaid Hvalue Hpay H1 H2 H3 H4.
    assert (Hp' : FillOrder.paid_failure engine' order.2 feeInvoice.2 depositInvoice.2 = None)
      by (unfold FillOrder.paid_failure in Hp |- *; now rewrite Hpaid).
    assert (Hv' : FillOrder.refund_value_failure engine' params order.2
                    feeInvoice.2 depositInvoice.2 = None)
      by (unfold FillOrder.refund_value_failure in Hv |- *; now rewrite Hvalue).
    unfold FillOrder.fillOrder, bind. rewrite lookup_run, Hfill, Horder. cbn [fst snd].
    rewrite (settle_run engine params w fill order feeInvoice depositInvoice Hf Hd), Hp, Hv.
    rewrite (settle_run engine' params w fill order feeInvoice depositInvoice Hf Hd), Hp', Hv'.
    cbv zeta. unfold FillOrder.paid_back. rewrite Hpay.
    match goal with
    | |- context [FillOrder.checkChannelBalances ?o ?f engine' ?w1] =>
        rewrite (proj2 (checkChannelBalances_order_amounts o f engine w1)
                   engine' f eq_refl H1 H2 H3 H4)
    end.
    reflexivity.
Qed.

Lemma fillOrder_balance_checks_use_order_amounts_witness :
  (FillOrder.fillOrder Sample.engine Sample.fill_params1
     (Sample.world (Sample.db_of (Sample.poor_order PLACED)))).1
  = Throw (PublicError (FillOrder.INSUFFICIENT_FUNDS_OUTBOUND "order-42")).
Proof.
  apply (fillOrder_balance_checks_use_order_amounts Sample.engine Sample.fill_params1
           (Sample.world (Sample.db_of (Sample.poor_order PLACED)))
           (0%nat, Sample.fill1) (0%nat, Sample.poor_order PLACED)
           (1%nat, Sample.incoming "f1" FILL FEE "fee-f1")
           (1%nat, Sample.incoming "f1" FILL DEPOSIT "dep-f1"));
    reflexivity.
Defined.

(** The order FillOrder has its checks in, as the handler is written: the
    records exist (fill, order, fee invoice, deposit invoice), both
    invoices are paid, each refund request is worth its invoice, and then
    the four-way balance check.  The first one that fails ends the call
    with its error: a plain Error for a missing record or an unpaid
    invoice, a PublicError for unequal values or an insufficient balance.
    A call that passes them all either succeeds or throws
    ORDER_NOT_PLACED. *)
Theorem fillOrder_checks_in_order
    (engine : Engine) (params : FillOrder.Params) (w : World) :
  match FillOrder.precondition_failure engine params (db w) with
  | Some e => (FillOrder.fillOrder engine params w).1 = Throw e
  | None =>
      (FillOrder.fillOrder engine params w).1 = Return EmptyObject \/
      exists id,
        (FillOrder.fillOrder engine params w).1
          = Throw (PublicError (FillOrder.ORDER_NOT_PLACED id))
  end.
Proof.
  destruct (FillOrder.precondition_failure engine params (db w)) as [e|] eqn:Hpre.
  - apply fillOrder_precondition_failure in Hpre as (w' & -> & _). reflexivity.
  - destruct (precondition_failure_None _ _ _ Hpre)
      as (fill & order & fee & dep & Hfill & Horder & _).
    destruct (decide (Order.status order.2 = PLACED)) as [Hst|Hst].
    + left. now rewrite (fillOrder_placed engine params w fill order).
    + right. exists (Order.orderId order.2).
      now rewrite (fillOrder_not_placed engine params w fill order).
Qed.

(** The handler does not follow the stated order (balance before refund
    values): with the maker short of outbound balance and the fee refund
    request worth more than the fee invoice, the stated order gives the
    balance error, and the call throws the refund-value error. *)
Lemma fillOrder_checks_values_before_balance :
  ~ FillOrder.checks_in_stated_order Sample.engine Sample.fill_params_big
      (Sample.world (Sample.db_of (Sample.poor_order PLACED))).
Proof.
  intros H.
  specialize (H (PublicError (FillOrder.INSUFFICIENT_FUNDS_OUTBOUND "order-42")) eq_refl).
  vm_compute in H. discriminate.
Qed.

(** PlaceOrder, on the like input, does give the balance error. *)
Example placeOrder_checks_balance_before_values :
  (PlaceOrder.placeOrder Sample.engine Sample.place_params_big
     (Sample.world (Sample.db_of (Sample.poor_order CREATED)))).1
  = Throw (PublicError (PlaceOrder.INSUFFICIENT_FUNDS_OUTBOUND "order-42")).
Proof. reflexivity. Qed.

(** C6, on the code: FillOrder does not apply its checks as PlaceOrder
    does.  With the maker short of outbound balance and the fee refund
    request worth more than the fee invoice, the stated order (balance
    before refund values) gives the balance error, which is what
    PlaceOrder throws on the like input, and FillOrder throws the
    refund-value error.  With the fee invoice unpaid, PlaceOrder throws a
    PublicError and FillOrder a plain Error. *)
Theorem fillOrder_checks_unlike_placeOrder :
  let w := Sample.world (Sample.db_of (Sample.poor_order PLACED)) in
  FillOrder.stated_order_failure Sample.engine Sample.fill_params_big (db w)
    = Some (PublicError (FillOrder.INSUFFICIENT_FUNDS_OUTBOUND "order-42")) /\
  (PlaceOrder.placeOrder Sample.engine Sample.place_params_big w).1
    = Throw (PublicError (PlaceOrder.INSUFFICIENT_FUNDS_OUTBOUND "order-42")) /\
  (FillOrder.fillOrder Sample.engine Sample.fill_params_big w).1
    = Throw (PublicError (FillOrder.FEE_VALUES_UNEQUAL "order-42")) /\
  (PlaceOrder.placeOrder Sample.engine Sample.place_params (Sample.world Unpaid.db)).1
    = Throw (PublicError "Fee Invoice has not been paid. Order id: order-42") /\
  (FillOrder.fillOrder Sample.engine Sample.fill_params1 (Sample.world Unpaid.db)).1
    = Throw (Error "Fee Invoice for Order order-42 has not been paid.").
Proof. repeat split. Qed.

(** C5, on the code: a FillOrder call whose maker is short of outbound
    balance throws the balance error after it has stored the fill's two
    refund invoices: the store is not as it was before the call. *)
Theorem fillOrder_stores_refunds_before_balance_check :
  let w := Sample.world (Sample.db_of (Sample.poor_order PLACED)) in
  let w' := (FillOrder.fillOrder Sample.engine Sample.fill_params1 w).2 in
  (FillOrder.fillOrder Sample.engine Sample.fill_params1 w).1
    = Throw (PublicError "Outbound channel does not have sufficient balance. Order id: order-42")
  /\ feeRefundInvoices (db w) = []
  /\ depositRefundInvoices (db w) = []
  /\ feeRefundInvoices (db w') = [FillOrder.fee_refund Sample.fill1 Sample.fill_params1]
  /\ depositRefundInvoices (db w') = [FillOrder.deposit_refund Sample.fill1 Sample.fill_params1].
Proof. repeat split. Qed.

(** ** FillOrder calls for one order *)










(** ** MessageQueue: who gets an item *)

(** C7, amended: an item put into a queue that is empty and has nobody
    waiting is handed to the first [next] after it and to no other: that
    promise is settled with the item and the item leaves the queue; a
    second [next] in a row does not observe it, its promise stays pending
    as the only listener, and the next item put in, not the first one,
    settles it. *)
Theorem next_takes_the_item_out (q : MessageQueue.t) (item item' : string) :
  MessageQueue._queue q = [] ->
  MessageQueue._listeners q = [] ->
  (forall p, (MessageQueue.promises q <= p)%nat -> MessageQueue.resolved q !! p = None) ->
  let q1 := MessageQueue.enqueue item q in
  let first := MessageQueue.next q1 in
  let second := MessageQueue.next first.2 in
  let q4 := MessageQueue.enqueue item' second.2 in
  MessageQueue.observed first.2 first.1 = Some (Some item) /\
  MessageQueue._queue first.2 = [] /\
  MessageQueue.observed second.2 first.1 = Some (Some item) /\
  MessageQueue.observed second.2 second.1 = None /\
  MessageQueue._listeners second.2 = [second.1] /\
  MessageQueue.observed q4 second.1 = Some (Some item') /\
  MessageQueue._queue q4 = [].
Proof.
  destruct q as [qu ls n r dq]. cbn [MessageQueue._queue MessageQueue._listeners
    MessageQueue.promises MessageQueue.resolved].
  intros -> -> Hfresh.
  assert (Hn : r !! n = None) by (apply Hfresh; lia).
  assert (HSn : r !! S n = None) by (apply Hfresh; lia).
  cbn. unfold MessageQueue.observed, MessageQueue.resolve.
  cbn [MessageQueue.resolved]. rewrite Hn.
  rewrite lookup_insert_eq.
  rewrite lookup_insert_ne by lia. rewrite HSn.
  rewrite lookup_insert_eq.
  repeat split; reflexivity.
Qed.

Lemma next_takes_the_item_out_witness :
  let q1 := MessageQueue.enqueue "fill-7" MessageQueue.new in
  let first := MessageQueue.next q1 in
  let second := MessageQueue.next first.2 in
  let q4 := MessageQueue.enqueue "fill-8" second.2 in
  MessageQueue.observed first.2 first.1 = Some (Some "fill-7") /\
  MessageQueue._queue first.2 = [] /\
  MessageQueue.observed second.2 first.1 = Some (Some "fill-7") /\
  MessageQueue.observed second.2 second.1 = None /\
  MessageQueue._listeners second.2 = [second.1] /\
  MessageQueue.observed q4 second.1 = Some (Some "fill-8") /\
  MessageQueue._queue q4 = [].
Proof.
  apply (next_takes_the_item_out MessageQueue.new "fill-7" "fill-8").
  - reflexivity.
  - reflexivity.
  - intros p _. reflexivity.
Defined.

(** C7, as stated, fails: after [enqueue "fill-7"] on a new queue the
    first [next] observes "fill-7" and the second observes nothing. *)
Lemma second_next_observes_nothing :
  ~ MessageQueue.observed_twice "fill-7" MessageQueue.new.
Proof.
  intros [_ H]. vm_compute in H. discriminate.
Qed.

(** * Further properties *)

(** ** MessageQueue under any use *)

Lemma resolve_keeps (item v : option string) (r : gmap nat (option string)) (p p' : nat) :
  r !! p' = Some v -> MessageQueue.resolve item r p !! p' = Some v.
Proof.
  intros H. unfold MessageQueue.resolve.
  destruct (r !! p) eqn:Hp; [exact H|].
  rewrite lookup_insert_ne; [exact H | congruence].
Qed.

Lemma resolve_all_keeps (item v : option string) (ls : list nat) :
  forall (r : gmap nat (option string)) (p' : nat),
    r !! p' = Some v -> foldl (MessageQueue.resolve item) r ls !! p' = Some v.
Proof.
  induction ls as [|p ls IH]; intros r p' H; cbn [foldl]; [exact H|].
  apply IH. now apply resolve_keeps.
Qed.

Lemma resolve_all_other (item : option string) (ls : list nat) :
  forall (r : gmap nat (option string)) (p' : nat),
    p' ∉ ls -> foldl (MessageQueue.resolve item) r ls !! p' = r !! p'.
Proof.
  induction ls as [|p ls IH]; intros r p' Hp'; cbn [foldl]; [reflexivity|].
  apply not_elem_of_cons in Hp' as [Hne Hp']. rewrite IH by exact Hp'.
  unfold MessageQueue.resolve. destruct (r !! p); [reflexivity|].
  now rewrite lookup_insert_ne.
Qed.

Lemma resolve_all_settles (item : option string) (ls : list nat) :
  forall (r : gmap nat (option string)) (p' : nat),
    p' ∈ ls -> r !! p' = None ->
    foldl (MessageQueue.resolve item) r ls !! p' = Some item.
Proof.
  induction ls as [|p ls IH]; intros r p' Hin Hnone; cbn [foldl].
  - inversion Hin.
  - destruct (decide (p' = p)) as [->|Hne].
    + apply resolve_all_keeps. unfold MessageQueue.resolve. rewrite Hnone.
      apply lookup_insert_eq.
    + apply elem_of_cons in Hin as [Heq|Hin]; [contradiction|].
      apply IH; [exact Hin|].
      unfold MessageQueue.resolve. destruct (r !! p); [exact Hnone|].
      now rewrite lookup_insert_ne.
Qed.

(** One call keeps what is settled. *)
Lemma exec1_keeps_settled (q : MessageQueue.t) (op : QueueOps.Op) (p : nat) (v : option string) :
  MessageQueue.resolved q !! p = Some v ->
  MessageQueue.resolved (QueueOps.exec1 q op) !! p = Some v.
Proof.
  destruct q as [qu ls n r dq]. cbn [MessageQueue.resolved]. intros H.
  destruct op as [item| |]; cbn [QueueOps.exec1].
  - unfold MessageQueue.enqueue, MessageQueue.on_enqueue.
    cbn [MessageQueue._listeners MessageQueue._queue].
    destruct ls as [|l ls]; [exact H|].
    unfold MessageQueue.dequeue. cbn [MessageQueue._queue].
    destruct (qu ++ [item]); cbn -[foldl]; now apply resolve_all_keeps.
  - unfold MessageQueue.dequeue. cbn [MessageQueue._queue]. destruct qu; exact H.
  - unfold MessageQueue.next. cbn [MessageQueue._queue]. destruct qu; [exact H|].
    cbn. now apply resolve_keeps.
Qed.

Lemma exec_keeps_settled (ops : list QueueOps.Op) :
  forall (q : MessageQueue.t) (p : nat) (v : option string),
    MessageQueue.resolved q !! p = Some v ->
    MessageQueue.resolved (QueueOps.exec ops q) !! p = Some v.
Proof.
  unfold QueueOps.exec.
  induction ops as [|op ops IH]; intros q p v H; cbn [foldl]; [exact H|].
  apply IH. now apply exec1_keeps_settled.
Qed.

(** X1: a settled promise stays settled with the same value: no call of
    enqueue, dequeue or next, in any number and order, changes what a
    promise was resolved with. *)
Theorem settled_promise_is_final
    (ops : list QueueOps.Op) (q : MessageQueue.t) (p : nat) (v : option string) :
  MessageQueue.observed q p = Some v ->
  MessageQueue.observed (QueueOps.exec ops q) p = Some v.
Proof.
  unfold QueueOps.exec, MessageQueue.observed. revert q.
  induction ops as [|op ops IH]; intros q H; cbn [foldl]; [exact H|].
  apply IH. now apply exec1_keeps_settled.
Qed.

Lemma settled_promise_is_final_witness :
  MessageQueue.observed
    (QueueOps.exec [QueueOps.Next; QueueOps.Enqueue "fill-8"; QueueOps.Dequeue]
       (MessageQueue.next (MessageQueue.enqueue "fill-7" MessageQueue.new)).2) 0%nat
  = Some (Some "fill-7").
Proof.
  apply (settled_promise_is_final
           [QueueOps.Next; QueueOps.Enqueue "fill-8"; QueueOps.Dequeue]
           (MessageQueue.next (MessageQueue.enqueue "fill-7" MessageQueue.new)).2
           0%nat (Some "fill-7")).
  reflexivity.
Defined.

Lemma consistent_new : QueueOps.consistent MessageQueue.new.
Proof.
  split; cbn.
  - now left.
  - intros p v H. rewrite lookup_empty in H. discriminate.
  - intros p H. inversion H.
Qed.

Lemma consistent_exec1 (q : MessageQueue.t) (op : QueueOps.Op) :
  QueueOps.consistent q -> QueueOps.consistent (QueueOps.exec1 q op).
Proof.
  destruct q as [qu ls n r dq]. intros [Hex Hset Hls].
  cbn [MessageQueue._queue MessageQueue._listeners MessageQueue.promises
       MessageQueue.resolved] in *.
  destruct op as [item| |]; cbn [QueueOps.exec1].
  - (* enqueue *)
    unfold MessageQueue.enqueue, MessageQueue.on_enqueue.
    cbn [MessageQueue._listeners MessageQueue._queue].
    destruct ls as [|l ls].
    + split; cbn; auto; intros p H; inversion H.
    + destruct Hex as [->|Hex]; [|discriminate].
      cbn -[foldl]. split; cbn -[foldl].
      * now left.
      * intros p v H. destruct (decide (p ∈ l :: ls)) as [Hin|Hnin].
        -- now apply Hls.
        -- rewrite resolve_all_other in H by exact Hnin. eauto.
      * intros p H. inversion H.
  - (* dequeue *)
    unfold MessageQueue.dequeue. cbn [MessageQueue._queue].
    destruct qu as [|x qu]; cbn; split; cbn; auto.
    destruct Hex as [Hex| ->]; [discriminate|]. now right.
  - (* next *)
    unfold MessageQueue.next. cbn [MessageQueue._queue].
    destruct qu as [|x qu]; cbn.
    + split; cbn.
      * now left.
      * intros p v H. apply Hset in H. lia.
      * intros p H. apply elem_of_app in H as [H|H].
        -- apply Hls in H as [Hlt Hnone]. split; [lia | exact Hnone].
        -- apply list_elem_of_singleton in H as ->. split; [lia|].
           destruct (r !! n) eqn:Hn; [|reflexivity]. apply Hset in Hn. lia.
    + destruct Hex as [Hex| ->]; [discriminate|]. split; cbn.
      * now right.
      * intros p v H. unfold MessageQueue.resolve in H.
        destruct (r !! n) eqn:Hn; [apply Hset in Hn; lia|].
        destruct (decide (n = p)) as [->|Hne]; [lia|].
        rewrite lookup_insert_ne in H by exact Hne. apply Hset in H. lia.
      * intros p H. inversion H.
Qed.

(** X2: however a queue is used from its construction on, by any calls of
    enqueue, dequeue and next in any order, items and listeners never wait
    together (one of [_queue] and [_listeners] is empty), every settled
    promise is one [next] handed out, and every listener belongs to a
    promise handed out and still pending. *)
Theorem queue_stays_consistent (ops : list QueueOps.Op) :
  QueueOps.consistent (QueueOps.exec ops MessageQueue.new).
Proof.
  unfold QueueOps.exec.
  generalize consistent_new. generalize MessageQueue.new.
  induction ops as [|op ops IH]; intros q Hq; cbn [foldl]; [exact Hq|].
  apply IH. now apply consistent_exec1.
Qed.

Lemma passed_through_exec1 (q : MessageQueue.t) (op : QueueOps.Op) :
  QueueOps.passed_through (QueueOps.exec1 q op)
  = QueueOps.passed_through q ++ QueueOps.enqueued [op].
Proof.
  destruct q as [qu ls n r dq]. unfold QueueOps.passed_through, QueueOps.enqueued.
  destruct op as [item| |]; cbn [QueueOps.exec1 omap list_omap].
  - unfold MessageQueue.enqueue, MessageQueue.on_enqueue.
    cbn [MessageQueue._listeners MessageQueue._queue].
    destruct ls as [|l ls].
    + cbn. now rewrite app_assoc.
    + unfold MessageQueue.dequeue. cbn [MessageQueue._queue].
      destruct qu as [|x qu]; cbn -[foldl omap];
        rewrite omap_app; cbn; rewrite ?app_nil_r, <- ?app_assoc; reflexivity.
  - unfold MessageQueue.dequeue. cbn [MessageQueue._queue].
    destruct qu as [|x qu]; cbn; rewrite omap_app; cbn;
      rewrite ?app_nil_r, <- ?app_assoc; reflexivity.
  - unfold MessageQueue.next, MessageQueue.dequeue. cbn [MessageQueue._queue].
    destruct qu as [|x qu]; cbn.
    + now rewrite ?app_nil_r.
    + rewrite omap_app. cbn. rewrite ?app_nil_r, <- ?app_assoc. reflexivity.
Qed.

(** X3: no item is lost, repeated or reordered: after any calls of
    enqueue, dequeue and next on any queue, the items taken out so far
    (as the 'dequeue' events report them) followed by the items still
    queued are the same sequence as before, followed by the items the
    calls enqueued, in the order they were enqueued. *)
Theorem items_pass_through_in_order (ops : list QueueOps.Op) (q : MessageQueue.t) :
  QueueOps.passed_through (QueueOps.exec ops q)
  = QueueOps.passed_through q ++ QueueOps.enqueued ops.
Proof.
  unfold QueueOps.exec. revert q.
  induction ops as [|op ops IH]; intros q; cbn [foldl].
  - unfold QueueOps.enqueued. cbn. now rewrite app_nil_r.
  - rewrite IH, passed_through_exec1. unfold QueueOps.enqueued.
    rewrite <- app_assoc. f_equal.
    change (op :: ops) with ([op] ++ ops). now rewrite omap_app.
Qed.

(** X4: an item enqueued while listeners wait on an empty queue goes to
    every one of them: each pending promise is settled with that same
    item, nobody is left waiting, and the item is not kept in the queue
    for a later [next]. *)
Theorem enqueue_settles_every_listener (q : MessageQueue.t) (item : string) :
  MessageQueue._queue q = [] ->
  MessageQueue._listeners q <> [] ->
  (forall p, p ∈ MessageQueue._listeners q -> MessageQueue.resolved q !! p = None) ->
  let q' := MessageQueue.enqueue item q in
  (forall p, p ∈ MessageQueue._listeners q -> MessageQueue.observed q' p = Some (Some item)) /\
  (forall p, p ∉ MessageQueue._listeners q -> MessageQueue.observed q' p = MessageQueue.observed q p) /\
  MessageQueue._listeners q' = [] /\
  MessageQueue._queue q' = [] /\
  MessageQueue.dequeued q' = MessageQueue.dequeued q ++ [Some item].
Proof.
  destruct q as [qu ls n r dq].
  cbn [MessageQueue._queue MessageQueue._listeners MessageQueue.resolved
       MessageQueue.dequeued].
  intros -> Hls Hpending. destruct ls as [|l ls]; [contradiction|].
  unfold MessageQueue.observed. cbn -[foldl]. repeat split.
  - intros p Hp. apply resolve_all_settles; auto.
  - intros p Hp. now apply resolve_all_other.
Qed.

Lemma enqueue_settles_every_listener_witness :
  let q := (MessageQueue.next (MessageQueue.next MessageQueue.new).2).2 in
  let q' := MessageQueue.enqueue "fill-7" q in
  MessageQueue.observed q' 0%nat = Some (Some "fill-7") /\
  MessageQueue.observed q' 1%nat = Some (Some "fill-7") /\
  MessageQueue._queue q' = [].
Proof.
  intros q q'.
  destruct (enqueue_settles_every_listener q "fill-7") as (Hall & _ & _ & Hqu & _).
  - reflexivity.
  - discriminate.
  - intros p _. reflexivity.
  - split; [|split].
    + apply Hall. vm_compute. apply list_elem_of_here.
    + apply Hall. vm_compute. apply list_elem_of_further, list_elem_of_here.
    + exact Hqu.
Defined.

(** X5: items queued with nobody waiting go to the next calls of [next]
    one each, oldest first: after as many calls of [next] as there are
    items, the promise of the i-th call is settled with the i-th item of
    the queue. *)
Theorem queued_items_are_handed_out_in_order (items : list string) :
  forall (q : MessageQueue.t) (i : nat) (x : string),
    MessageQueue._queue q = items ->
    (forall p, (MessageQueue.promises q <= p)%nat -> MessageQueue.resolved q !! p = None) ->
    items !! i = Some x ->
    MessageQueue.observed
      (QueueOps.exec (replicate (List.length items) QueueOps.Next) q)
      (MessageQueue.promises q + i)
    = Some (Some x).
Proof.
  induction items as [|y items IH]; intros q i x Hqu Hfresh Hi; [discriminate|].
  destruct q as [qu ls n r dq].
  cbn [MessageQueue._queue MessageQueue.promises MessageQueue.resolved] in *. subst qu.
  cbn [List.length replicate QueueOps.exec foldl QueueOps.exec1].
  change (foldl QueueOps.exec1 ?q0 ?ops) with (QueueOps.exec ops q0).
  assert (Hn : r !! n = None) by (apply Hfresh; lia).
  destruct i as [|i]; cbn in Hi.
  - injection Hi as ->. unfold MessageQueue.observed. apply exec_keeps_settled.
    cbn. unfold MessageQueue.resolve.
    rewrite Hn, Nat.add_0_r. apply lookup_insert_eq.
  - replace (n + S i)%nat with (S n + i)%nat by lia.
    apply (IH (MessageQueue.next (MessageQueue.mk (y :: items) ls n r dq)).2 i x).
    + reflexivity.
    + cbn. intros p Hp. unfold MessageQueue.resolve. rewrite Hn.
      rewrite lookup_insert_ne by lia. apply Hfresh. lia.
    + exact Hi.
Qed.

Lemma queued_items_are_handed_out_in_order_witness :
  MessageQueue.observed
    (QueueOps.exec [QueueOps.Next; QueueOps.Next]
       (QueueOps.exec [QueueOps.Enqueue "fill-7"; QueueOps.Enqueue "fill-8"] MessageQueue.new))
    1%nat
  = Some (Some "fill-8").
Proof.
  apply (queued_items_are_handed_out_in_order ["fill-7"; "fill-8"]
           (QueueOps.exec [QueueOps.Enqueue "fill-7"; QueueOps.Enqueue "fill-8"]
              MessageQueue.new) 1%nat "fill-8").
  - reflexivity.
  - intros p _. reflexivity.
  - reflexivity.
Defined.

(** ** PlaceOrder, case by case *)

Lemma placeOrder_unknown (engine : Engine) (params : PlaceOrder.Params) (w : World) :
  findOne (PlaceOrder.by_orderId (PlaceOrder.orderId params)) (orders (db w)) = None ->
  PlaceOrder.placeOrder engine params w = (Throw TypeError, w).
Proof.
  intros Ho. unfold PlaceOrder.placeOrder. run_monad. now rewrite Ho.
Qed.

Lemma placeOrder_fails (engine : Engine) (params : PlaceOrder.Params) (w : World)
    (order : Doc Order.t) (msg : string) :
  findOne (PlaceOrder.by_orderId (PlaceOrder.orderId params)) (orders (db w)) = Some order ->
  PlaceChecks.precondition_failure engine params (db w) order.2 = Some msg ->
  exists line,
    PlaceOrder.placeOrder engine params w = (Throw (PublicError msg), logged error line w).
Proof.
  intros Ho. unfold PlaceChecks.precondition_failure, PlaceOrder.placeOrder. run_monad.
  rewrite Ho. run_monad.
  destruct (findOne _ (feeInvoices (db w))) as [fee|]; cbn [fst snd].
  2:{ intros [= <-]. eexists; reflexivity. }
  destruct (findOne _ (depositInvoices (db w))) as [dep|].
  2:{ intros [= <-]. eexists; reflexivity. }
  unfold PlaceOrder.place_checked.
  repeat match goal with
         | |- context [negb ?b] =>
             destruct b; cbn [negb];
             [|intros [= <-]; run_monad; eexists; reflexivity]
         end.
  discriminate.
Qed.

Lemma placeOrder_passes (engine : Engine) (params : PlaceOrder.Params) (d : Db)
    (order : Order.t) :
  PlaceChecks.precondition_failure engine params d order = None ->
  exists feeInvoice depositInvoice,
    findOne (PlaceOrder.by_foreignId (Order._id order)) (feeInvoices d) = Some feeInvoice /\
    findOne (PlaceOrder.by_foreignId (Order._id order)) (depositInvoices d)
      = Some depositInvoice /\
    PlaceOrder.paid_and_equal engine params feeInvoice.2 depositInvoice.2 /\
    PlaceOrder.balances_sufficient engine order.
Proof.
  unfold PlaceChecks.precondition_failure, PlaceOrder.paid_and_equal,
    PlaceOrder.balances_sufficient.
  destruct (findOne _ (feeInvoices d)) as [fee|]; [|discriminate].
  destruct (findOne _ (depositInvoices d)) as [dep|]; [|discriminate].
  destruct (isInvoicePaid engine (Invoice.paymentRequest fee.2)) eqn:Hpf; [|discriminate].
  destruct (isInvoicePaid engine (Invoice.paymentRequest dep.2)) eqn:Hpd; [|discriminate].
  destruct (isBalanceSufficient engine _ (Order.counterAmount order) true) eqn:Hbo;
    [|discriminate].
  destruct (isBalanceSufficient engine _ (Order.baseAmount order) false) eqn:Hbi;
    [|discriminate].
  destruct (Z.eqb_spec (getInvoiceValue engine (Invoice.paymentRequest fee.2))
              (getInvoiceValue engine (PlaceOrder.feeRefundPaymentRequest params)));
    [|discriminate].
  destruct (Z.eqb_spec (getInvoiceValue engine (Invoice.paymentRequest dep.2))
              (getInvoiceValue engine (PlaceOrder.depositRefundPaymentRequest params)));
    [|discriminate].
  intros _. exists fee, dep. auto 10.
Qed.

Lemma placeOrder_cancelled_run (engine : Engine) (params : PlaceOrder.Params) (w : World)
    (order : Doc Order.t) :
  findOne (PlaceOrder.by_orderId (PlaceOrder.orderId params)) (orders (db w)) = Some order ->
  PlaceChecks.precondition_failure engine params (db w) order.2 = None ->
  Order.status order.2 = CANCELLED ->
  exists feeRefundInvoice depositRefundInvoice,
    findOne (PlaceOrder.by_foreignId (Order._id order.2))
      (feeRefundInvoices (db w)
         ++ [PlaceOrder.refund_fields (Order._id order.2)
               (PlaceOrder.feeRefundPaymentRequest params)])
      = Some feeRefundInvoice /\
    findOne (PlaceOrder.by_foreignId (Order._id order.2))
      (depositRefundInvoices (db w)
         ++ [PlaceOrder.refund_fields (Order._id order.2)
               (PlaceOrder.depositRefundPaymentRequest params)])
      = Some depositRefundInvoice /\
    PlaceOrder.placeOrder engine params w =
      (Return EmptyObject,
       PlaceChecks.refunded engine params order.2 feeRefundInvoice depositRefundInvoice w).
Proof.
  intros Ho Hpre Hst.
  apply placeOrder_passes in Hpre as (fee & dep & Hf & Hd & Hpe & Hb).
  destruct (found_refund (Order._id order.2) (PlaceOrder.feeRefundPaymentRequest params)
              (feeRefundInvoices (db w))) as (fr & Hfr & _).
  destruct (found_refund (Order._id order.2) (PlaceOrder.depositRefundPaymentRequest params)
              (depositRefundInvoices (db w))) as (dr & Hdr & _).
  exists fr, dr. split; [exact Hfr|]. split; [exact Hdr|].
  rewrite (placeOrder_checked engine params w order fee dep) by assumption.
  rewrite bool_decide_eq_true_2 by assumption.
  unfold PlaceOrder.refund_cancelled. run_monad.
  change (feeRefundInvoices (db (PlaceOrder.stored_refunds params order.2 w))) with
    (feeRefundInvoices (db w) ++
       [PlaceOrder.refund_fields (Order._id order.2) (PlaceOrder.feeRefundPaymentRequest params)]).
  change (depositRefundInvoices (db (PlaceOrder.stored_refunds params order.2 w))) with
    (depositRefundInvoices (db w) ++
       [PlaceOrder.refund_fields (Order._id order.2)
          (PlaceOrder.depositRefundPaymentRequest params)]).
  rewrite Hfr, Hdr. rewrite !refund_run. run_monad.
  unfold PlaceChecks.refunded. cbn. rewrite <- !app_assoc. reflexivity.
Qed.

Lemma placeOrder_placed_run (engine : Engine) (params : PlaceOrder.Params) (w : World)
    (order : Doc Order.t) :
  findOne (PlaceOrder.by_orderId (PlaceOrder.orderId params)) (orders (db w)) = Some order ->
  PlaceChecks.precondition_failure engine params (db w) order.2 = None ->
  Order.status order.2 <> CANCELLED ->
  PlaceOrder.placeOrder engine params w
    = (Return EmptyResponse, PlaceChecks.placed params order w).
Proof.
  intros Ho Hpre Hst.
  apply placeOrder_passes in Hpre as (fee & dep & Hf & Hd & Hpe & Hb).
  rewrite (placeOrder_checked engine params w order fee dep) by assumption.
  rewrite bool_decide_eq_false_2 by assumption.
  run_monad. reflexivity.
Qed.

(** The four ways a call ends. *)
Lemma placeOrder_cases (engine : Engine) (params : PlaceOrder.Params) (w : World) :
  PlaceOrder.placeOrder engine params w = (Throw TypeError, w) \/
  (exists msg line,
     PlaceOrder.placeOrder engine params w = (Throw (PublicError msg), logged error line w)) \/
  (exists order fr dr,
     findOne (PlaceOrder.by_orderId (PlaceOrder.orderId params)) (orders (db w)) = Some order /\
     Order.status order.2 = CANCELLED /\
     PlaceOrder.placeOrder engine params w
       = (Return EmptyObject, PlaceChecks.refunded engine params order.2 fr dr w)) \/
  (exists order,
     findOne (PlaceOrder.by_orderId (PlaceOrder.orderId params)) (orders (db w)) = Some order /\
     Order.status order.2 <> CANCELLED /\
     PlaceOrder.placeOrder engine params w
       = (Return EmptyResponse, PlaceChecks.placed params order w)).
Proof.
  destruct (findOne (PlaceOrder.by_orderId (PlaceOrder.orderId params)) (orders (db w)))
    as [order|] eqn:Ho.
  2:{ left. now apply placeOrder_unknown. }
  destruct (PlaceChecks.precondition_failure engine params (db w) order.2) as [msg|] eqn:Hpre.
  { right; left. destruct (placeOrder_fails engine params w order msg Ho Hpre) as [line H].
    eauto. }
  destruct (decide (Order.status order.2 = CANCELLED)) as [Hst|Hst].
  - right; right; left.
    destruct (placeOrder_cancelled_run engine params w order Ho Hpre Hst)
      as (fr & dr & _ & _ & H). eauto 10.
  - right; right; right. exists order. split; [reflexivity|]. split; [exact Hst|].
    now apply placeOrder_placed_run.
Qed.

(** ** FillOrder, case by case *)

Lemma paid_failure_Error (engine : Engine) (order : Order.t) (fee dep : Invoice.t) (e : Err) :
  FillOrder.paid_failure engine order fee dep = Some e -> exists msg, e = Error msg.
Proof.
  unfold FillOrder.paid_failure.
  repeat match goal with |- context [negb ?b] => destruct b; cbn [negb] end;
    intros [= <-]; eauto.
Qed.

Lemma refund_value_failure_PublicError (engine : Engine) (params : FillOrder.Params)
    (order : Order.t) (fee dep : Invoice.t) (e : Err) :
  FillOrder.refund_value_failure engine params order fee dep = Some e ->
  exists msg, e = PublicError msg.
Proof.
  unfold FillOrder.refund_value_failure.
  repeat match goal with |- context [negb ?b] => destruct b; cbn [negb] end;
    intros [= <-]; eauto.
Qed.

Lemma balance_failure_PublicError (engine : Engine) (order : Order.t) (fill : Fill.t) (e : Err) :
  FillOrder.balance_failure engine order fill = Some e -> exists msg, e = PublicError msg.
Proof.
  unfold FillOrder.balance_failure.
  repeat match goal with |- context [negb ?b] => destruct b; cbn [negb] end;
    intros [= <-]; eauto.
Qed.

(** The five ways a call ends, with the world each leaves. *)
Lemma fillOrder_cases (engine : Engine) (params : FillOrder.Params) (w : World) :
  (exists msg,
     FillChecks.early_failure engine params (db w) = Some (Error msg) /\
     FillOrder.fillOrder engine params w = (Throw (Error msg), w)) \/
  (exists msg line,
     FillChecks.early_failure engine params (db w) = Some (PublicError msg) /\
     FillOrder.fillOrder engine params w = (Throw (PublicError msg), logged error line w)) \/
  (exists fill order,
     findOne (FillOrder.by_fillId (FillOrder.fillId params)) (fills (db w)) = Some fill /\
     findOne (FillOrder.by__id (Fill.order_id fill.2)) (orders (db w)) = Some order /\
     FillChecks.early_failure engine params (db w) = None /\
     ((exists msg line,
         FillOrder.fillOrder engine params w
           = (Throw (PublicError msg), logged error line (FillChecks.stored fill.2 params w))) \/
      (Order.status order.2 <> PLACED /\
       FillOrder.fillOrder engine params w
         = (Throw (PublicError (FillOrder.ORDER_NOT_PLACED (Order.orderId order.2))),
            FillChecks.refused engine fill.2 params w)) \/
      (Order.status order.2 = PLACED /\
       FillOrder.precondition_failure engine params (db w) = None /\
       FillOrder.fillOrder engine params w
         = (Return EmptyObject, FillChecks.accepted fill order params w)))).
Proof.
  pose proof (eq_refl (FillOrder.fillOrder engine params w)) as Hres.
  unfold FillOrder.fillOrder at 2 in Hres. unfold bind at 1 in Hres.
  rewrite lookup_run in Hres.
  unfold FillChecks.early_failure at 1 2, FillOrder.with_records.
  destruct (findOne _ (fills (db w))) as [fill|] eqn:Hfill; [|left; eauto].
  destruct (findOne _ (orders (db w))) as [order|] eqn:Horder; [|left; eauto].
  cbn [fst snd] in Hres |- *.
  destruct (findOne (FillOrder.by_fill_invoice (Fill._id fill.2) INCOMING FEE)
              (feeInvoices (db w))) as [fee|] eqn:Hf.
  2:{ left. unfold FillOrder.settle, FillOrder.invoicesForFill in Hres. run_monad.
      revert Hres. run_monad. rewrite Hf. eauto. }
  destruct (findOne (FillOrder.by_fill_invoice (Fill._id fill.2) INCOMING DEPOSIT)
              (depositInvoices (db w))) as [dep|] eqn:Hd.
  2:{ left. unfold FillOrder.settle, FillOrder.invoicesForFill in Hres.
      revert Hres. run_monad. rewrite Hf, Hd. eauto. }
  rewrite (settle_run engine params w fill order fee dep Hf Hd) in Hres.
  cbn [FillOrder.first_failure].
  destruct (FillOrder.paid_failure _ _ _ _) as [e1|] eqn:Hp.
  { left. apply paid_failure_Error in Hp as [msg ->]. eauto. }
  destruct (FillOrder.refund_value_failure _ _ _ _ _) as [e2|] eqn:Hv.
  { right; left. apply refund_value_failure_PublicError in Hv as [msg ->]. eauto. }
  cbn [FillOrder.first_failure]. rewrite ?Hp, ?Hv.
  assert (Hearly : FillChecks.early_failure engine params (db w) = None).
  { unfold FillChecks.early_failure, FillOrder.with_records.
    rewrite Hfill, Horder, Hf, Hd. cbn [FillOrder.first_failure]. now rewrite Hp, Hv. }
  right; right. exists fill, order. split; [reflexivity|]. split; [exact Horder|].
  split; [exact Hearly|]. cbv zeta in Hres.
  match type of Hres with
  | context [FillOrder.checkChannelBalances ?o ?f ?en ?w1] =>
      pose proof (checkChannelBalances_run o f en w1) as Hrun
  end.
  destruct (FillOrder.balance_failure _ _ _) as [e3|] eqn:Hb.
  { left. destruct Hrun as [line Hrun]. rewrite Hrun in Hres.
    apply balance_failure_PublicError in Hb as [msg ->]. eauto. }
  rewrite Hrun in Hres. right.
  destruct (decide (Order.status order.2 = PLACED)) as [Hst|Hst].
  - right. rewrite bool_decide_eq_true_2 in Hres by assumption.
    split; [exact Hst|]. split.
    { unfold FillOrder.precondition_failure, FillOrder.with_records.
      rewrite Hfill, Horder, Hf, Hd. cbn [FillOrder.first_failure]. now rewrite Hp, Hv, Hb. }
    rewrite Hres. unfold FillChecks.accepted.
    cbn [db logs emitted messenger payments orders fills feeInvoices depositInvoices
         feeRefundInvoices depositRefundInvoices].
    now rewrite <- app_assoc.
  - left. rewrite bool_decide_eq_false_2 in Hres by assumption.
    split; [exact Hst|].
    rewrite Hres. unfold FillChecks.refused.
    cbn [db logs emitted messenger payments orders fills feeInvoices depositInvoices
         feeRefundInvoices depositRefundInvoices].
    now rewrite !save_created.
Qed.

(** ** PlaceOrder: what every call does and does not do *)

(** X6: for an order on record, PlaceOrder applies its checks in this
    order: both invoices exist, the fee invoice is paid, the deposit
    invoice is paid, the outbound balance suffices, the inbound balance
    suffices, the fee refund is worth the fee invoice, the deposit refund
    is worth the deposit invoice.  The call throws the PublicError of the
    first check that fails; when all pass it returns [{}] for a CANCELLED
    order and an EmptyResponse for any other. *)
Theorem placeOrder_checks_in_order
    (engine : Engine) (params : PlaceOrder.Params) (w : World) (order : Doc Order.t) :
  findOne (PlaceOrder.by_orderId (PlaceOrder.orderId params)) (orders (db w)) = Some order ->
  (PlaceOrder.placeOrder engine params w).1 =
    match PlaceChecks.precondition_failure engine params (db w) order.2 with
    | Some msg => Throw (PublicError msg)
    | None =>
        Return (if bool_decide (Order.status order.2 = CANCELLED)
                then EmptyObject else EmptyResponse)
    end.
Proof.
  intros Ho.
  destruct (PlaceChecks.precondition_failure engine params (db w) order.2) as [msg|] eqn:Hpre.
  - destruct (placeOrder_fails engine params w order msg Ho Hpre) as [line ->]. reflexivity.
  - destruct (decide (Order.status order.2 = CANCELLED)) as [Hst|Hst].
    + destruct (placeOrder_cancelled_run engine params w order Ho Hpre Hst)
        as (fr & dr & _ & _ & ->).
      now rewrite bool_decide_eq_true_2.
    + rewrite (placeOrder_placed_run engine params w order Ho Hpre Hst).
      now rewrite bool_decide_eq_false_2.
Qed.

Lemma placeOrder_checks_in_order_witness :
  (PlaceOrder.placeOrder Sample.engine Sample.place_params_big
     (Sample.world (Sample.db_of (Sample.poor_order CREATED)))).1
  = Throw (PublicError (PlaceOrder.INSUFFICIENT_FUNDS_OUTBOUND "order-42")).
Proof.
  apply (placeOrder_checks_in_order Sample.engine Sample.place_params_big
           (Sample.world (Sample.db_of (Sample.poor_order CREATED)))
           (0%nat, Sample.poor_order CREATED)).
  reflexivity.
Defined.

(** X7: a PlaceOrder call that throws has changed nothing but the log:
    for an order id not on record it throws a TypeError and leaves the
    world as it was, and otherwise it has appended one error line to the
    log; the store, the event bus, the messenger and the payments are as
    before, whatever the error. *)
Theorem placeOrder_throw_changes_only_log
    (engine : Engine) (params : PlaceOrder.Params) (w : World) (e : Err) :
  (PlaceOrder.placeOrder engine params w).1 = Throw e ->
  let w' := (PlaceOrder.placeOrder engine params w).2 in
  (e = TypeError /\ w' = w) \/
  (exists msg line, e = PublicError msg /\ w' = logged error line w).
Proof.
  intros He w'. subst w'.
  destruct (placeOrder_cases engine params w)
    as [H | [(msg & line & H) | [(order & fr & dr & _ & _ & H) | (order & _ & _ & H)]]];
    rewrite H in He |- *; cbn [fst snd] in He |- *.
  - left. split; congruence.
  - right. exists msg, line. split; congruence.
  - discriminate.
  - discriminate.
Qed.

Lemma placeOrder_throw_changes_only_log_witness :
  let w := Sample.world (Sample.db_of (Sample.poor_order CREATED)) in
  let w' := (PlaceOrder.placeOrder Sample.engine Sample.place_params w).2 in
  db w' = db w /\ payments w' = payments w.
Proof.
  intros w w'.
  destruct (placeOrder_throw_changes_only_log Sample.engine Sample.place_params w
              (PublicError (PlaceOrder.INSUFFICIENT_FUNDS_OUTBOUND "order-42")))
    as [[H _] | (msg & line & _ & H)].
  - reflexivity.
  - discriminate.
  - subst w'. rewrite H. split; reflexivity.
Defined.

(** X8: no PlaceOrder call touches the fills, the incoming fee and deposit
    invoices, or the messenger; a call makes a payment only for an order
    it found CANCELLED, and emits an event only for an order it found in
    another status. *)
Theorem placeOrder_frame (engine : Engine) (params : PlaceOrder.Params) (w : World) :
  let w' := (PlaceOrder.placeOrder engine params w).2 in
  fills (db w') = fills (db w) /\
  feeInvoices (db w') = feeInvoices (db w) /\
  depositInvoices (db w') = depositInvoices (db w) /\
  messenger w' = messenger w /\
  (payments w' <> payments w ->
   exists order,
     findOne (PlaceOrder.by_orderId (PlaceOrder.orderId params)) (orders (db w)) = Some order /\
     Order.status order.2 = CANCELLED) /\
  (emitted w' <> emitted w ->
   exists order,
     findOne (PlaceOrder.by_orderId (PlaceOrder.orderId params)) (orders (db w)) = Some order /\
     Order.status order.2 <> CANCELLED).
Proof.
  intros w'. subst w'.
  destruct (placeOrder_cases engine params w)
    as [H | [(msg & line & H) | [(order & fr & dr & Ho & Hst & H) | (order & Ho & Hst & H)]]];
    rewrite H; cbn [fst snd];
    (split; [reflexivity|]); (split; [reflexivity|]); (split; [reflexivity|]);
    (split; [reflexivity|]); split; intros Hne;
    first [now elim Hne | exists order; split; assumption].
Qed.

Lemma placeOrder_frame_witness :
  exists order,
    findOne (PlaceOrder.by_orderId (PlaceOrder.orderId Sample.place_params))
      (orders (db (Sample.world (Sample.db_of (Sample.order CANCELLED))))) = Some order /\
    Order.status order.2 = CANCELLED.
Proof.
  destruct (placeOrder_frame Sample.engine Sample.place_params
              (Sample.world (Sample.db_of (Sample.order CANCELLED))))
    as (_ & _ & _ & _ & H & _).
  apply H. vm_compute. discriminate.
Defined.

(** ** A cancelled order is refunded once *)

Lemma settled_found (engine : Engine) (id : string) (l : list Invoice.t) (inv : Doc Invoice.t) :
  (forall pr, payInvoice engine pr <> "") ->
  findOne (PlaceOrder.by_foreignId id) l = Some inv ->
  exists paid,
    findOne (PlaceOrder.by_foreignId id) (PlaceOrder.settled engine inv l) = Some (inv.1, paid) /\
    falsy (Invoice.preimage paid) = false.
Proof.
  intros Hpre Hfind. destruct inv as [i x]. unfold PlaceOrder.settled. cbn [fst snd].
  destruct (falsy (Invoice.preimage x)) eqn:Hfalsy.
  - pose proof Hfind as Hfind'. apply findOne_Some in Hfind' as (Hi & _).
    eexists. split.
    + rewrite (findOne_insert _ _ _ x _ Hi) by reflexivity.
      rewrite Hfind. now rewrite decide_True by reflexivity.
    + cbn. apply bool_decide_eq_false_2. apply Hpre.
  - eauto.
Qed.

Lemma place_failure_same_invoices (engine : Engine) (params : PlaceOrder.Params)
    (d d' : Db) (order : Order.t) :
  feeInvoices d' = feeInvoices d -> depositInvoices d' = depositInvoices d ->
  PlaceChecks.precondition_failure engine params d' order
  = PlaceChecks.precondition_failure engine params d order.
Proof.
  intros Hf Hd. unfold PlaceChecks.precondition_failure. now rewrite Hf, Hd.
Qed.

(** X9: a cancelled order is not refunded twice.  With an engine whose
    preimages are never empty, once a PlaceOrder call on a CANCELLED
    order has run its refunds, a further PlaceOrder call for the same
    order that passes its checks returns [{}] and makes no payment. *)
Theorem cancelled_order_is_refunded_once
    (engine : Engine) (params params' : PlaceOrder.Params) (w : World) (order : Doc Order.t) :
  (forall pr, payInvoice engine pr <> "") ->
  findOne (PlaceOrder.by_orderId (PlaceOrder.orderId params)) (orders (db w)) = Some order ->
  PlaceOrder.orderId params' = PlaceOrder.orderId params ->
  Order.status order.2 = CANCELLED ->
  PlaceChecks.precondition_failure engine params (db w) order.2 = None ->
  PlaceChecks.precondition_failure engine params' (db w) order.2 = None ->
  let w1 := (PlaceOrder.placeOrder engine params w).2 in
  (PlaceOrder.placeOrder engine params' w1).1 = Return EmptyObject /\
  payments (PlaceOrder.placeOrder engine params' w1).2 = payments w1.
Proof.
  intros Hpre Ho Hid Hst Hchk Hchk' w1. subst w1.
  destruct (placeOrder_cancelled_run engine params w order Ho Hchk Hst)
    as (fr & dr & Hfr & Hdr & ->). cbn [snd].
  set (w1 := PlaceChecks.refunded engine params order.2 fr dr w).
  assert (Ho1 : findOne (PlaceOrder.by_orderId (PlaceOrder.orderId params')) (orders (db w1))
                = Some order) by (rewrite Hid; exact Ho).
  assert (Hchk1 : PlaceChecks.precondition_failure engine params' (db w1) order.2 = None).
  { rewrite <- Hchk'. now apply place_failure_same_invoices. }
  destruct (placeOrder_cancelled_run engine params' w1 order Ho1 Hchk1 Hst)
    as (fr' & dr' & Hfr' & Hdr' & ->). cbn [fst snd].
  split; [reflexivity|].
  destruct (settled_found engine _ _ fr Hpre Hfr) as (pf & Hpf & Hpf').
  destruct (settled_found engine _ _ dr Hpre Hdr) as (pd & Hpd & Hpd').
  change (feeRefundInvoices (db w1)) with
    (PlaceOrder.settled engine fr
       (feeRefundInvoices (db w)
          ++ [PlaceOrder.refund_fields (Order._id order.2)
                (PlaceOrder.feeRefundPaymentRequest params)])) in Hfr'.
  change (depositRefundInvoices (db w1)) with
    (PlaceOrder.settled engine dr
       (depositRefundInvoices (db w)
          ++ [PlaceOrder.refund_fields (Order._id order.2)
                (PlaceOrder.depositRefundPaymentRequest params)])) in Hdr'.
  rewrite findOne_snoc, Hpf in Hfr' by apply by_foreignId_refund_fields.
  rewrite findOne_snoc, Hpd in Hdr' by apply by_foreignId_refund_fields.
  injection Hfr' as <-. injection Hdr' as <-.
  unfold PlaceChecks.refunded at 1. cbn [payments]. unfold PlaceOrder.due. cbn [fst snd].
  rewrite Hpf', Hpd'. now rewrite !app_nil_r.
Qed.

Lemma cancelled_order_is_refunded_once_witness :
  let w1 := (PlaceOrder.placeOrder Sample.engine Sample.place_params
               (Sample.world (Sample.db_of (Sample.order CANCELLED)))).2 in
  (PlaceOrder.placeOrder Sample.engine Sample.place_params w1).1 = Return EmptyObject /\
  payments (PlaceOrder.placeOrder Sample.engine Sample.place_params w1).2 = payments w1.
Proof.
  apply (cancelled_order_is_refunded_once Sample.engine Sample.place_params Sample.place_params
           (Sample.world (Sample.db_of (Sample.order CANCELLED)))
           (0%nat, Sample.order CANCELLED)).
  - intros pr. discriminate.
  - reflexivity.
  - reflexivity.
  - reflexivity.
  - reflexivity.
  - reflexivity.
Defined.

(** ** FillOrder: what every call does and does not do *)

(** X10: what an accepted fill leaves in the store can be read back: after
    a FillOrder call that passes every precondition on a PLACED order, the
    fill is found again by its fill id, now accepted, the order is found
    again by its id, now FILLED, the messenger holds the fill id under
    fill: followed by the order's id and its other keys are as before, and
    nothing was paid. *)
Theorem accepted_fill_is_read_back
    (engine : Engine) (params : FillOrder.Params) (w : World)
    (fill : Doc Fill.t) (order : Doc Order.t) :
  findOne (FillOrder.by_fillId (FillOrder.fillId params)) (fills (db w)) = Some fill ->
  findOne (FillOrder.by__id (Fill.order_id fill.2)) (orders (db w)) = Some order ->
  FillOrder.precondition_failure engine params (db w) = None ->
  Order.status order.2 = PLACED ->
  let w' := (FillOrder.fillOrder engine params w).2 in
  findOne (FillOrder.by_fillId (FillOrder.fillId params)) (fills (db w'))
    = Some (fill.1, Fill.set_status FILL_ACCEPTED fill.2) /\
  findOne (FillOrder.by__id (Fill.order_id fill.2)) (orders (db w'))
    = Some (order.1, Order.set_status FILLED order.2) /\
  messenger w' !! ("fill:" +:+ Order._id order.2) = Some (Fill.fillId fill.2) /\
  (forall key, key <> "fill:" +:+ Order._id order.2 -> messenger w' !! key = messenger w !! key) /\
  payments w' = payments w.
Proof.
  intros Hfill Horder Hpre Hst w'. subst w'.
  rewrite (fillOrder_placed engine params w fill order Hfill Horder Hpre Hst).
  cbn [snd db fills orders messenger payments].
  destruct fill as [i f], order as [j o]. cbn [fst snd] in *.
  pose proof Hfill as Hi. apply findOne_Some in Hi as (Hi & _).
  pose proof Horder as Hj. apply findOne_Some in Hj as (Hj & _).
  repeat split.
  - rewrite (findOne_insert _ _ _ f _ Hi) by reflexivity.
    rewrite Hfill. now rewrite decide_True by reflexivity.
  - rewrite (findOne_insert _ _ _ o _ Hj) by reflexivity.
    rewrite Horder. now rewrite decide_True by reflexivity.
  - apply lookup_insert_eq.
  - intros key Hkey. now rewrite lookup_insert_ne.
Qed.

Lemma accepted_fill_is_read_back_witness :
  let w' := (FillOrder.fillOrder Sample.engine Sample.fill_params1
               (Sample.world (Sample.db_of (Sample.order PLACED)))).2 in
  messenger w' !! "fill:o1" = Some "fill-7".
Proof.
  intros w'.
  destruct (accepted_fill_is_read_back Sample.engine Sample.fill_params1
              (Sample.world (Sample.db_of (Sample.order PLACED)))
              (0%nat, Sample.fill1) (0%nat, Sample.order PLACED))
    as (_ & _ & H & _); [reflexivity | reflexivity | reflexivity | reflexivity | exact H].
Defined.

(** X11: no FillOrder call emits an event or touches the incoming fee and
    deposit invoices, and only a call that returns successfully changes
    an order, a fill or the messenger: a call that throws has accepted
    nothing and announced nothing. *)
Theorem fillOrder_frame (engine : Engine) (params : FillOrder.Params) (w : World) :
  let r := (FillOrder.fillOrder engine params w).1 in
  let w' := (FillOrder.fillOrder engine params w).2 in
  emitted w' = emitted w /\
  feeInvoices (db w') = feeInvoices (db w) /\
  depositInvoices (db w') = depositInvoices (db w) /\
  (r <> Return EmptyObject ->
   orders (db w') = orders (db w) /\ fills (db w') = fills (db w) /\
   messenger w' = messenger w).
Proof.
  intros r w'. subst r w'.
  destruct (fillOrder_cases engine params w)
    as [(msg & _ & H) | [(msg & line & _ & H) | (fill & order & _ & _ & _ &
         [(msg & line & H) | [(_ & H) | (_ & _ & H)]])]];
    rewrite H; cbn [fst snd];
    (split; [reflexivity|]); (split; [reflexivity|]); (split; [reflexivity|]);
    intros Hne; first [now elim Hne | repeat split; reflexivity].
Qed.

Lemma fillOrder_frame_witness :
  let w := Sample.world (Sample.db_of (Sample.poor_order PLACED)) in
  fills (db (FillOrder.fillOrder Sample.engine Sample.fill_params1 w).2) = fills (db w).
Proof.
  intros w.
  destruct (fillOrder_frame Sample.engine Sample.fill_params1 w) as (_ & _ & _ & H).
  apply H. vm_compute. discriminate.
Defined.

(** No precondition's error is the refusal for an order that is not
    PLACED. *)
Lemma precondition_failure_is_no_refusal
    (engine : Engine) (params : FillOrder.Params) (d : Db) (e : Err) (id : string) :
  FillOrder.precondition_failure engine params d = Some e ->
  e <> PublicError (FillOrder.ORDER_NOT_PLACED id).
Proof.
  unfold FillOrder.precondition_failure, FillOrder.with_records, FillOrder.paid_failure,
    FillOrder.refund_value_failure, FillOrder.balance_failure.
  cbn [FillOrder.first_failure].
  unfold FillOrder.ORDER_NOT_PLACED, FillOrder.FEE_VALUES_UNEQUAL,
    FillOrder.DEPOSIT_VALUES_UNEQUAL, FillOrder.INSUFFICIENT_FUNDS_OUTBOUND,
    FillOrder.INSUFFICIENT_FUNDS_INBOUND.
  repeat (case_match; try discriminate); intros Hsome Hid;
    cbn in *; simplify_eq.
Qed.

(** X12: a FillOrder call pays exactly when it refuses the fill with
    ORDER_NOT_PLACED.  A call that ends with this refusal has paid the
    call's fee refund request and then its deposit refund request, and
    nothing else; every other call, one that succeeds or one that fails a
    precondition, has paid nothing. *)
Theorem fillOrder_pays_only_when_refusing
    (engine : Engine) (params : FillOrder.Params) (w : World) :
  let r := (FillOrder.fillOrder engine params w).1 in
  let w' := (FillOrder.fillOrder engine params w).2 in
  (forall id, r = Throw (PublicError (FillOrder.ORDER_NOT_PLACED id)) ->
     payments w' = payments w ++ [FillOrder.feeRefundPaymentRequest params;
                                  FillOrder.depositRefundPaymentRequest params]) /\
  ((forall id, r <> Throw (PublicError (FillOrder.ORDER_NOT_PLACED id))) ->
     payments w' = payments w).
Proof.
  intros r w'. subst r w'.
  destruct (FillOrder.precondition_failure engine params (db w)) as [e|] eqn:Hpre.
  - destruct (fillOrder_precondition_failure engine params w e Hpre)
      as (w1 & -> & _ & _ & _ & _ & _ & _ & Hpay).
    cbn [fst snd]. split.
    + intros id [= He]. now apply (precondition_failure_is_no_refusal _ _ _ _ id) in Hpre.
    + intros _. exact Hpay.
  - destruct (precondition_failure_None _ _ _ Hpre)
      as (fill & order & fee & dep & Hfill & Horder & _).
    destruct (decide (Order.status order.2 = PLACED)) as [Hst|Hst].
    + rewrite (fillOrder_placed engine params w fill order Hfill Horder Hpre Hst).
      cbn [fst snd payments]. split; [discriminate | reflexivity].
    + rewrite (fillOrder_not_placed engine params w fill order Hfill Horder Hpre Hst).
      cbn [fst snd payments]. split; [reflexivity|].
      intros Hno. now elim (Hno (Order.orderId order.2)).
Qed.

Lemma fillOrder_pays_only_when_refusing_witness :
  let w := Sample.world (Sample.db_of (Sample.order CANCELLED)) in
  payments (FillOrder.fillOrder Sample.engine Sample.fill_params1 w).2
  = ["refund-fee-f1"; "refund-dep-f1"].
Proof.
  intros w.
  destruct (fillOrder_pays_only_when_refusing Sample.engine Sample.fill_params1 w) as [H _].
  apply (H "order-42"). reflexivity.
Defined.

(** X13: a FillOrder call that throws a plain Error (no such fill, no
    order for the fill, a missing fee or deposit invoice, an unpaid fee
    or deposit invoice) leaves the world exactly as it was: nothing is
    stored and nothing is logged. *)
Theorem fillOrder_plain_error_changes_nothing
    (engine : Engine) (params : FillOrder.Params) (w : World) (msg : string) :
  (FillOrder.fillOrder engine params w).1 = Throw (Error msg) ->
  (FillOrder.fillOrder engine params w).2 = w.
Proof.
  intros He.
  destruct (fillOrder_cases engine params w)
    as [(msg' & _ & H) | [(msg' & line & _ & H) | (fill & order & _ & _ & _ &
         [(msg' & line & H) | [(_ & H) | (_ & _ & H)]])]];
    rewrite H in He |- *; cbn [fst snd] in He |- *; (reflexivity || discriminate).
Qed.

Lemma fillOrder_plain_error_changes_nothing_witness :
  (FillOrder.fillOrder Sample.engine (FillOrder.mkParams "fill-9" "a" "b")
     (Sample.world (Sample.db_of (Sample.order PLACED)))).2
  = Sample.world (Sample.db_of (Sample.order PLACED)).
Proof.
  apply (fillOrder_plain_error_changes_nothing Sample.engine
           (FillOrder.mkParams "fill-9" "a" "b")
           (Sample.world (Sample.db_of (Sample.order PLACED)))
           "No fill with ID fill-9.").
  reflexivity.
Defined.

(** X14: when a FillOrder call stores refund invoices.  A call that fails
    one of the checks made before the store is written (records exist,
    invoices paid, refund values equal) throws that check's error and
    leaves the store as it was.  Every other call, whatever it ends with
    (success, ORDER_NOT_PLACED or an insufficient balance), has added
    exactly one fee refund invoice and one deposit refund invoice, last in
    their collections, for the fill and with the call's refund requests. *)
Theorem fillOrder_stores_refunds_past_early_checks
    (engine : Engine) (params : FillOrder.Params) (w : World) :
  let r := (FillOrder.fillOrder engine params w).1 in
  let w' := (FillOrder.fillOrder engine params w).2 in
  match FillChecks.early_failure engine params (db w) with
  | Some e => r = Throw e /\ db w' = db w
  | None =>
      exists fill feeRefund depositRefund,
        findOne (FillOrder.by_fillId (FillOrder.fillId params)) (fills (db w)) = Some fill /\
        feeRefundInvoices (db w') = feeRefundInvoices (db w) ++ [feeRefund] /\
        depositRefundInvoices (db w') = depositRefundInvoices (db w) ++ [depositRefund] /\
        Invoice.foreignId feeRefund = Fill._id fill.2 /\
        Invoice.paymentRequest feeRefund = FillOrder.feeRefundPaymentRequest params /\
        Invoice.foreignId depositRefund = Fill._id fill.2 /\
        Invoice.paymentRequest depositRefund = FillOrder.depositRefundPaymentRequest params
  end.
Proof.
  intros r w'. subst r w'.
  destruct (fillOrder_cases engine params w)
    as [(msg & -> & H) | [(msg & line & -> & H) | (fill & order & Hfill & _ & -> &
         [(msg & line & H) | [(_ & H) | (_ & _ & H)]])]];
    rewrite H; cbn [fst snd].
  - split; reflexivity.
  - split; reflexivity.
  - exists fill. do 2 eexists. repeat split; try reflexivity. exact Hfill.
  - exists fill. do 2 eexists. repeat split; try reflexivity. exact Hfill.
  - exists fill. do 2 eexists. repeat split; try reflexivity. exact Hfill.
Qed.

(** ** From placing to filling *)








(** X18: the refund of a refused fill waits on the balance check.  A
    FillOrder call for an order that is no longer PLACED, with its
    invoices paid and its refund values equal, but with one of the four
    channel balances short, throws the balance error: the fill's refund
    invoices are stored without a preimage and nothing is paid back. *)
Theorem no_refund_when_balance_is_short
    (engine : Engine) (params : FillOrder.Params) (w : World)
    (fill : Doc Fill.t) (order : Doc Order.t) (e : Err) :
  findOne (FillOrder.by_fillId (FillOrder.fillId params)) (fills (db w)) = Some fill ->
  findOne (FillOrder.by__id (Fill.order_id fill.2)) (orders (db w)) = Some order ->
  Order.status order.2 <> PLACED ->
  FillChecks.early_failure engine params (db w) = None ->
  FillOrder.balance_failure engine order.2 fill.2 = Some e ->
  let w' := (FillOrder.fillOrder engine params w).2 in
  (FillOrder.fillOrder engine params w).1 = Throw e /\
  payments w' = payments w /\
  feeRefundInvoices (db w') = feeRefundInvoices (db w) ++ [FillOrder.fee_refund fill.2 params] /\
  depositRefundInvoices (db w')
    = depositRefundInvoices (db w) ++ [FillOrder.deposit_refund fill.2 params].
Proof.
  intros Hfill Horder Hst Hearly Hb w'. subst w'.
  assert (Hpre : FillOrder.precondition_failure engine params (db w) = Some e).
  { unfold FillChecks.early_failure, FillOrder.precondition_failure,
      FillOrder.with_records in Hearly |- *.
    rewrite Hfill in Hearly |- *. cbn [fst snd] in Hearly |- *.
    rewrite Horder in Hearly |- *.
    destruct (findOne _ (feeInvoices (db w))) as [fee|]; [|discriminate].
    destruct (findOne _ (depositInvoices (db w))) as [dep|]; [|discriminate].
    cbn [FillOrder.first_failure] in Hearly |- *.
    destruct (FillOrder.paid_failure _ _ _ _); [discriminate|].
    destruct (FillOrder.refund_value_failure _ _ _ _ _); [discriminate|].
    now rewrite Hb. }
  destruct (fillOrder_precondition_failure engine params w e Hpre)
    as (w1 & Hrun & _ & _ & _ & _ & _ & _ & Hpay).
  destruct (fillOrder_cases engine params w)
    as [(msg & He & _) | [(msg & line & He & _) | (fill' & order' & Hfill' & _ & _ &
         [(msg & line & H) | [(_ & H) | (_ & _ & H)]])]].
  - congruence.
  - congruence.
  - rewrite Hfill in Hfill'. injection Hfill' as <-.
    rewrite Hrun in H |- *. injection H as _ ->. cbn [fst snd]. repeat split.
  - rewrite Hrun in H. injection H as _ ->.
    cbn [payments FillChecks.refused] in Hpay.
    apply (f_equal List.length) in Hpay. rewrite length_app in Hpay. cbn in Hpay. lia.
  - rewrite Hrun in H. discriminate.
Qed.

Lemma no_refund_when_balance_is_short_witness :
  let w := Sample.world (Sample.db_of (Sample.poor_order CANCELLED)) in
  payments (FillOrder.fillOrder Sample.engine Sample.fill_params1 w).2 = [].
Proof.
  intros w.
  destruct (no_refund_when_balance_is_short Sample.engine Sample.fill_params1 w
              (0%nat, Sample.fill1) (0%nat, Sample.poor_order CANCELLED)
              (PublicError (FillOrder.INSUFFICIENT_FUNDS_OUTBOUND "order-42")))
    as (_ & H & _);
    [reflexivity | reflexivity | discriminate | reflexivity | reflexivity | exact H].
Defined.
